(** * dobi image build task: staleness oracle and build-context packer

    A shallow embedding of [tasks/image/build.go].  Go functions that return
    [(value, error)] become functions returning a pair whose second component
    is an [error] ([None] is Go's [nil]).  Everything the task touches outside
    its own memory (the docker engine, the file system, the record store, the
    wall clock and the logger) lives in one [World] value that is threaded
    through a small state monad; a run-time panic is a separate outcome. *)

From Stdlib Require Import ZArith String Ascii List Bool Lia.
From Stdlib Require Import Strings.Byte.
From stdpp Require Import base option gmap strings list.

Local Open Scope string_scope.
Local Open Scope list_scope.
Local Open Scope Z_scope.

(** ** Go values *)

(** A [time.Time] instant, in nanoseconds. *)
Definition Time := Z.

(** [a.Before(b)]: strictly earlier. *)
Definition Before (a b : Time) : bool := a <? b.

(** Non-nil Go error values.  The sentinels the code or its libraries compare
    against are constructors of their own. *)
Inductive err : Type :=
| ErrNoSuchImage                (* docker.ErrNoSuchImage *)
| SkipDir                       (* filepath.SkipDir *)
| ErrWriteTooLong               (* tar.ErrWriteTooLong *)
| ErrWriteAfterClose            (* tar.ErrWriteAfterClose *)
| ErrMissedWriting (n : Z)      (* archive/tar: missed writing n bytes *)
| ErrOther (msg : string).      (* any other error *)

(** The Go interface type [error]; [None] is [nil]. *)
Definition error := option err.

#[global] Instance err_eq_dec : EqDecision err.
Proof. solve_decision. Defined.

(** The methods of [os.FileInfo] the task calls. *)
Record FileInfo : Type := mkFileInfo {
  IsDir : bool;
  Mode : Z;
  ModTime : Time
}.

(** ** Outcomes and the state monad *)

(** A Go call either returns (with the state it leaves behind) or panics. *)
Inductive Outcome (S A : Type) : Type :=
| Ok (a : A) (s : S)
| Panic (msg : string).
Arguments Ok {S A} a s.
Arguments Panic {S A} msg.

Definition ST (S A : Type) : Type := S -> Outcome S A.

Definition ret {S A} (a : A) : ST S A := fun s => Ok a s.

Definition bind {S A B} (m : ST S A) (k : A -> ST S B) : ST S B :=
  fun s => match m s with
           | Ok a s' => k a s'
           | Panic msg => Panic msg
           end.

Definition panic {S A} (msg : string) : ST S A := fun _ => Panic msg.

Definition get {S} : ST S S := fun s => Ok s s.
Definition modify {S} (f : S -> S) : ST S unit := fun s => Ok tt (f s).

Declare Scope go_scope.
Delimit Scope go_scope with go.
Notation "x <- m ;; k" := (bind m (fun x => k))
  (at level 20, m at level 99, k at level 200, right associativity) : go_scope.
Notation "' p <- m ;; k" := (bind m (fun x => let 'p := x in k))
  (at level 20, p pattern, m at level 99, k at level 200, right associativity) : go_scope.
Notation "m ;;; k" := (bind m (fun _ => k))
  (at level 100, k at level 200, right associativity) : go_scope.
Local Open Scope go_scope.

(** ** path/filepath *)

Module filepath.

(** What [os.Lstat] and [readDirNames] report below one path: either the
    lstat fails, or it yields a [FileInfo] and, for a directory, the
    directory listing (or the error reading it) with the entries found
    under each name, in the order [readDirNames] gives the names. *)
#[warnings="-register-all"] Inductive FsEntry : Type :=
| NoEntry (e : err)
| Entry (info : FileInfo) (readErr : error) (names : list (string * FsEntry)).

(** Induction over a tree, with the hypothesis available for every entry
    of a directory listing. *)
Section FsEntry_induction.
Variable P : FsEntry -> Prop.
Hypothesis P_NoEntry : forall e, P (NoEntry e).
Hypothesis P_Entry :
  forall info readErr names,
    Forall (fun p => P p.2) names -> P (Entry info readErr names).

Fixpoint FsEntry_forall_ind (n : FsEntry) : P n :=
  match n with
  | NoEntry e => P_NoEntry e
  | Entry info readErr names =>
      P_Entry info readErr names
        ((fix go (l : list (string * FsEntry)) : Forall (fun p => P p.2) l :=
            match l with
            | [] => @List.Forall_nil _ _
            | p :: rest => @List.Forall_cons _ _ p rest (FsEntry_forall_ind p.2) (go rest)
            end) names)
  end.
End FsEntry_induction.

(** [filepath.Join] of a walked path and an entry name (both already clean,
    so joining is concatenation around the separator). *)
Definition Join (dir name : string) : string := dir +:+ "/" +:+ name.

(** [strip] drops trailing separators from a reversed path. *)
Fixpoint strip (rev_path : list ascii) : list ascii :=
  match rev_path with
  | "/"%char :: rest => strip rest
  | _ => rev_path
  end.

Fixpoint last_element (rev_path : list ascii) : list ascii :=
  match rev_path with
  | [] => []
  | "/"%char :: _ => []
  | c :: rest => c :: last_element rest
  end.

(** [filepath.Base]: the last element of the path, after removing trailing
    slashes; ["."] for the empty path and ["/"] for a path of slashes. *)
Definition Base (path : string) : string :=
  if String.eqb path "" then "."
  else
    let elem := rev (last_element (strip (rev (list_ascii_of_string path)))) in
    match elem with
    | [] => "/"
    | _ => string_of_list_ascii elem
    end.

(** [filepath.WalkFunc], with the variables the closure captures as [St]. *)
Definition WalkFunc (St : Type) : Type :=
  string -> option FileInfo -> error -> ST St error.

Section Walk.
Context {St : Type} (walkFn : WalkFunc St).

(** [filepath.walk], together with the lstat of the root that
    [filepath.Walk] does before calling it.  The callback sees an entry
    first; a directory is then listed and every name in it is lstat-ed
    and walked in turn.  A listing error and an lstat error are handed to
    the callback, whose return value decides what happens next: the walk
    itself never returns an error the callback did not return.  (Later Go
    releases list a directory before the first call on it and make one
    call instead of two; a callback that ignores its error argument
    cannot tell the difference.) *)
Fixpoint walk (path : string) (n : FsEntry) {struct n} : ST St error :=
  match n with
  | NoEntry le => walkFn path None (Some le)
  | Entry info readErr names =>
      e <- walkFn path (Some info) None ;;
      match e with
      | Some e' =>
          if IsDir info && bool_decide (e' = SkipDir) then ret None
          else ret (Some e')
      | None =>
          if negb (IsDir info) then ret None
          else
            match readErr with
            | Some re => walkFn path (Some info) (Some re)
            | None =>
                (fix each (l : list (string * FsEntry)) : ST St error :=
                   match l with
                   | [] => ret None
                   | (name, child) :: rest =>
                       let filename := Join path name in
                       match child with
                       | NoEntry le =>
                           e1 <- walkFn filename None (Some le) ;;
                           match e1 with
                           | Some e1' =>
                               if bool_decide (e1' = SkipDir) then each rest
                               else ret (Some e1')
                           | None => each rest
                           end
                       | Entry cinfo _ _ =>
                           e1 <- walk filename child ;;
                           match e1 with
                           | Some e1' =>
                               if negb (IsDir cinfo)
                                  || negb (bool_decide (e1' = SkipDir))
                               then ret (Some e1')
                               else each rest
                           | None => each rest
                           end
                       end
                   end) names
            end
      end
  end.

(** [filepath.Walk]: when the root cannot be lstat-ed the callback is
    called once, with a nil [FileInfo] and the error. *)
Definition Walk (root : string) (rootEntry : FsEntry) : ST St error :=
  e <- walk root rootEntry ;;
  if bool_decide (e = Some SkipDir) then ret None else ret e.
End Walk.

End filepath.

(** ** The docker engine client (go-dockerclient) *)

Module docker.

Record Image : Type := mkImage {
  ID : string;
  Created : Time
}.

(** The zero [Image] a failed lookup leaves in the result variable. *)
Definition noImage : Image := {| ID := ""; Created := 0 |}.

Record BuildArg : Type := mkBuildArg {
  ArgName : string;
  ArgValue : string
}.

End docker.

(** ** archive/tar *)

Module tar.

Record Header : Type := mkHeader {
  Name : string;
  Size : Z;
  Mode : Z;
  ModTime : Time;
  AccessTime : Time;
  ChangeTime : Time
}.

(** What the writer hands to the underlying buffer: a header block, file
    data, or the end-of-archive marker.  The byte encoding of a block is
    not modelled. *)
Inductive Chunk : Type :=
| HeaderBlock (h : Header)
| Data (b : list byte)
| Trailer.

(** A [bytes.Buffer] holding an archive. *)
Definition Buffer : Type := list Chunk.

(** [tar.Writer]: the buffer it writes to, the bytes still owed to the
    current entry, and its closed and sticky-error flags. *)
Record Writer : Type := mkWriter {
  w : Buffer;
  nb : Z;
  closed : bool;
  werr : error
}.

Definition NewWriter (buf : Buffer) : Writer :=
  {| w := buf; nb := 0; closed := false; werr := None |}.

(** [Writer.Flush]: it is an error to move on while the current entry is
    short of the size its header announced. *)
Definition Flush (tw : Writer) : Writer :=
  if 0 <? nb tw
  then {| w := w tw; nb := nb tw; closed := closed tw;
          werr := Some (ErrMissedWriting (nb tw)) |}
  else tw.

Definition WriteHeader (hdr : Header) (tw : Writer) : error * Writer :=
  if closed tw then (Some ErrWriteAfterClose, tw)
  else
    let tw1 := match werr tw with None => Flush tw | Some _ => tw end in
    match werr tw1 with
    | Some e => (Some e, tw1)
    | None =>
        (None, {| w := w tw1 ++ [HeaderBlock hdr]; nb := Size hdr;
                  closed := false; werr := None |})
    end.

(** [Writer.Write]: at most [nb] bytes are accepted; a longer slice is cut
    and reported as [ErrWriteTooLong]. *)
Definition Write (b : list byte) (tw : Writer) : error * Writer :=
  if closed tw then (Some ErrWriteAfterClose, tw)
  else
    let overwrite := nb tw <? Z.of_nat (length b) in
    let b' := if overwrite then firstn (Z.to_nat (nb tw)) b else b in
    let tw1 := {| w := w tw ++ [Data b']; nb := nb tw - Z.of_nat (length b');
                  closed := false; werr := werr tw |} in
    (if overwrite then Some ErrWriteTooLong else None, tw1).

Definition Close (tw : Writer) : error * Writer :=
  if closed tw then (None, tw)
  else
    match werr tw with
    | Some e => (Some e, tw)
    | None =>
        let tw1 := Flush tw in
        let tw2 := {| w := w tw1; nb := nb tw1; closed := true; werr := werr tw1 |} in
        match werr tw2 with
        | Some e => (Some e, tw2)
        | None => (None, {| w := w tw2 ++ [Trailer]; nb := nb tw2;
                            closed := true; werr := None |})
        end
    end.

(** An unpacked archive member. *)
Record Member : Type := mkMember {
  header : Header;
  body : list byte
}.

(** [tar.Reader], run to the end of the archive: every header starts a
    member, the data that follows (up to the announced size) is its body,
    and the trailer ends the archive. *)
Fixpoint members (cur : option Member) (buf : Buffer) : list Member :=
  match buf with
  | [] => match cur with Some m => [m] | None => [] end
  | HeaderBlock h :: rest =>
      match cur with
      | Some m => m :: members (Some {| header := h; body := [] |}) rest
      | None => members (Some {| header := h; body := [] |}) rest
      end
  | Data b :: rest =>
      match cur with
      | Some m =>
          let room := Z.to_nat (Size (header m)) - length (body m) in
          members (Some {| header := header m;
                           body := body m ++ firstn room b |}) rest
      | None => members None rest
      end
  | Trailer :: _ => match cur with Some m => [m] | None => [] end
  end%nat.

Definition unpack (buf : Buffer) : list Member := members None buf.

End tar.

(** ** Task configuration and execution context *)

(** The fields of [config.ImageConfig] the build task reads.  [Args] is a Go
    map, so its keys are unique. *)
Record ImageConfig : Type := mkImageConfig {
  Image : string;
  Dockerfile : string; Context : string;
  Steps : string;
  Args : gmap string string;
  PullBaseImageOnBuild : bool
}.

Record Task : Type := mkTask {
  name : string;
  config : ImageConfig
}.

(** The fields of [context.ExecuteContext] the build task reads; the engine
    client it carries is part of the [World]. *)
Record ExecuteContext : Type := mkExecuteContext {
  WorkingDir : string;
  Quiet : bool;
  AuthConfigs : list (string * string)
}.

(** [docker.BuildImageOptions] as the task fills it in.  The output stream is
    the pipe [Stream] provides and carries no information of its own. *)
Record BuildImageOptions : Type := mkBuildImageOptions {
  opt_Name : string;
  opt_Dockerfile : string;
  opt_ContextDir : string;
  opt_InputStream : option tar.Buffer;
  opt_BuildArgs : list docker.BuildArg;
  opt_Pull : bool;
  opt_RmTmpContainer : bool;
  opt_RawJSONStream : bool;
  opt_SuppressOutput : bool;
  opt_AuthConfigs : list (string * string)
}.

(** [imageModifiedRecord]: the image id stored in the record file and the
    [os.FileInfo] of that file ([None] is a nil interface). *)
Record imageModifiedRecord : Type := mkRecord {
  ImageID : string; Info : option FileInfo
}.

(** ** The world outside the task *)

(** logrus levels the task logs at. *)
Inductive Level : Type := DebugLevel | InfoLevel | WarnLevel.

(** What the task does to the outside world, in order. *)
Inductive Event : Type :=
| EvLog (lvl : Level) (msg : string)
| EvLogErr (lvl : Level) (format : string) (e : err)
| EvLogStr (lvl : Level) (format : string) (arg : string)
| EvInspectImage (image : string)
| EvLastModified (dir : string)
| EvReadRecord (path : string)
| EvWriteRecord (path : string) (id : string)
| EvBuildImage (opts : BuildImageOptions).

(** A record file on disk: its content (an image id, or the error that
    reading or decoding it gives) and the modification time the file system
    keeps for it. *)
Record RecordFile : Type := mkRecordFile {
  stored : err + string;
  mtime : Time
}.

Record World : Type := mkWorld {
  (* the docker engine *)
  images : gmap string docker.Image;        (* images by name *)
  lookupFault : error;                      (* the engine cannot be asked *)
  buildOutcome : BuildImageOptions -> err + docker.Image;
  (* the file system *)
  lstat : string -> filepath.FsEntry;       (* the tree a walk finds at a root *)
  statOf : string -> err + FileInfo;        (* os.Stat *)
  contentOf : string -> err + list byte;    (* ioutil.ReadFile *)
  lastModifiedOf : string -> err + Time;    (* fs.LastModified *)
  ignoreSources : err + list string;        (* dockerignore.ReadAll *)
  recordFiles : gmap string RecordFile;
  writeFaults : list error;                 (* outcomes of the next record writes *)
  (* the wall clock: its successive readings, and how many were taken *)
  timeline : nat -> Time;
  reads : nat;
  (* everything observed so far, oldest first *)
  trace : list Event
}.

Definition with_trace (tr : list Event) (s : World) : World :=
  {| images := images s; lookupFault := lookupFault s;
     buildOutcome := buildOutcome s; lstat := lstat s; statOf := statOf s;
     contentOf := contentOf s; lastModifiedOf := lastModifiedOf s;
     ignoreSources := ignoreSources s; recordFiles := recordFiles s;
     writeFaults := writeFaults s; timeline := timeline s; reads := reads s;
     trace := tr |}.

Definition with_images (im : gmap string docker.Image) (s : World) : World :=
  {| images := im; lookupFault := lookupFault s;
     buildOutcome := buildOutcome s; lstat := lstat s; statOf := statOf s;
     contentOf := contentOf s; lastModifiedOf := lastModifiedOf s;
     ignoreSources := ignoreSources s; recordFiles := recordFiles s;
     writeFaults := writeFaults s; timeline := timeline s; reads := reads s;
     trace := trace s |}.

Definition with_records (rf : gmap string RecordFile) (s : World) : World :=
  {| images := images s; lookupFault := lookupFault s;
     buildOutcome := buildOutcome s; lstat := lstat s; statOf := statOf s;
     contentOf := contentOf s; lastModifiedOf := lastModifiedOf s;
     ignoreSources := ignoreSources s; recordFiles := rf;
     writeFaults := writeFaults s; timeline := timeline s; reads := reads s;
     trace := trace s |}.

Definition with_writeFaults (wf : list error) (s : World) : World :=
  {| images := images s; lookupFault := lookupFault s;
     buildOutcome := buildOutcome s; lstat := lstat s; statOf := statOf s;
     contentOf := contentOf s; lastModifiedOf := lastModifiedOf s;
     ignoreSources := ignoreSources s; recordFiles := recordFiles s;
     writeFaults := wf; timeline := timeline s; reads := reads s;
     trace := trace s |}.

Definition with_reads (n : nat) (s : World) : World :=
  {| images := images s; lookupFault := lookupFault s;
     buildOutcome := buildOutcome s; lstat := lstat s; statOf := statOf s;
     contentOf := contentOf s; lastModifiedOf := lastModifiedOf s;
     ignoreSources := ignoreSources s; recordFiles := recordFiles s;
     writeFaults := writeFaults s; timeline := timeline s; reads := n;
     trace := trace s |}.

(** The monad of the task: state is the world. *)
Definition M (A : Type) : Type := ST World A.

Definition emit (ev : Event) : M unit :=
  modify (fun s => with_trace (trace s ++ [ev]) s).

(** [time.Now()]: the next reading of the wall clock. *)
Definition Now : M Time :=
  fun s => Ok (timeline s (reads s)) (with_reads (S (reads s)) s).

(** [os.Stat] and [ioutil.ReadFile]: the value, or the error. *)
Definition Stat (file : string) : M (err + FileInfo) :=
  fun s => Ok (statOf s file) s.

Definition ReadFile (file : string) : M (err + list byte) :=
  fun s => Ok (contentOf s file) s.

(** [strings.TrimPrefix]. *)
Fixpoint TrimPrefix_aux (s prefix : string) : option string :=
  match prefix with
  | EmptyString => Some s
  | String p prefix' =>
      match s with
      | String c s' => if Ascii.eqb c p then TrimPrefix_aux s' prefix' else None
      | EmptyString => None
      end
  end.

Definition TrimPrefix (s prefix : string) : string :=
  match TrimPrefix_aux s prefix with
  | Some rest => rest
  | None => s
  end.

(** ** Collaborators of the task that live in other packages *)

(** [t.logger()]: the task's logger. *)
Definition logger_Debug (t : Task) (msg : string) : M unit := emit (EvLog DebugLevel msg).
Definition logger_Info (t : Task) (msg : string) : M unit := emit (EvLog InfoLevel msg).
Definition logger_Warnf (t : Task) (format : string) (e : err) : M unit :=
  emit (EvLogErr WarnLevel format e).
Definition logger_Warn (t : Task) (msg : string) : M unit := emit (EvLog WarnLevel msg).
Definition logger_Debugf (t : Task) (format arg : string) : M unit :=
  emit (EvLogStr DebugLevel format arg).

Module fs.
(** Modelled from the spec: [fs.LastModified] (package utils/fs) computes
    the most recent modification time across all files under the context
    root by a recursive walk, or fails with the underlying error. *)
Definition LastModified (dir : string) : M (Time * error) :=
  emit (EvLastModified dir) ;;;
  s <- get ;;
  match lastModifiedOf s dir with
  | inl e => ret (0, Some e)
  | inr tm => ret (tm, None)
  end.
End fs.

Module dockerignore.
(** Modelled from the spec: [dockerignore.ReadAll] (package
    utils/dockerignore) reads the configured ignore-pattern sources and
    yields the listed patterns, or the error reading them. *)
Definition ReadAll : M (list string * error) :=
  s <- get ;;
  match ignoreSources s with
  | inl e => ret ([], Some e)
  | inr l => ret (l, None)
  end.

(** Modelled from the spec: [dockerignore.Difference] is pure
    set-subtraction, paths present in [ignored] are removed from [all]. *)
Definition Difference (all ignored : list string) : list string :=
  filter (fun p => p ∉ ignored) all.
End dockerignore.

(** Modelled from the spec: [getImageRecord] (the build record store) reads
    the record at [path] and its stat-info; a missing file, a corrupt file
    and any other I/O error are one class of failure. *)
Definition getImageRecord (path : string) : M (imageModifiedRecord * error) :=
  emit (EvReadRecord path) ;;;
  s <- get ;;
  match recordFiles s !! path with
  | None => ret ({| ImageID := ""; Info := None |}, Some (ErrOther "no such file or directory"))
  | Some f =>
      match stored f with
      | inl e => ret ({| ImageID := ""; Info := None |}, Some e)
      | inr id =>
          let info := {| IsDir := false; Mode := 0; ModTime := mtime f |} in
          ret ({| ImageID := id; Info := Some info |}, None)
      end
  end.

(** Modelled from the spec: [updateImageRecord] fully replaces the record at
    [path]; the file's modification time, stamped by the file system from the
    wall clock, doubles as the record's timestamp.  A failed write leaves the
    store as it was. *)
Definition updateImageRecord (path : string) (record : imageModifiedRecord) : M error :=
  emit (EvWriteRecord path (ImageID record)) ;;;
  s <- get ;;
  match writeFaults s with
  | Some e :: later => modify (with_writeFaults later) ;;; ret (Some e)
  | outcome =>
      now <- Now ;;
      modify (fun s => with_records
                (<[path := {| stored := inr (ImageID record); mtime := now |}]> (recordFiles s))
                (with_writeFaults (tail outcome) s)) ;;;
      ret None
  end.

(** Modelled from the spec: [ctx.Client.BuildImage], the build engine
    contract [BuildImage(options) -> error].  A successful build leaves the
    image registered under the target name. *)
Definition Client_BuildImage (opts : BuildImageOptions) : M error :=
  emit (EvBuildImage opts) ;;;
  s <- get ;;
  match buildOutcome s opts with
  | inl e => ret (Some e)
  | inr img => modify (fun s => with_images (<[opt_Name opts := img]> (images s)) s) ;;; ret None
  end.

(** Modelled from the spec: [Stream] (same package, another file) gives the
    build a writer that copies the engine's output to the given sink; it runs
    the function once and returns its error. *)
Definition Stream (streamer : M error) : M error := streamer.

(** ** tasks/image/build.go *)

Section Build.

(** Naming of the image and of its record file belongs to other files of
    the package; both are deterministic functions of the task identity. *)
Variable GetImageName : ExecuteContext -> ImageConfig -> string.
Variable recordPath : ExecuteContext -> ImageConfig -> string.

(** Modelled from the spec: [GetImage] is the engine lookup
    [LookupImage(name) -> (ImageMetadata, ErrNoSuchImage | error)]. *)
Definition GetImage (ctx : ExecuteContext) (conf : ImageConfig)
  : M (docker.Image * error) :=
  emit (EvInspectImage (GetImageName ctx conf)) ;;;
  s <- get ;;
  match lookupFault s with
  | Some e => ret (docker.noImage, Some e)
  | None =>
      match images s !! GetImageName ctx conf with
      | Some img => ret (img, None)
      | None => ret (docker.noImage, Some ErrNoSuchImage)
      end
  end.

(** The closure passed to [filepath.Walk]; [placeholder] is the variable
    it captures.  Calling [f.IsDir()] on a nil [os.FileInfo] panics. *)
Definition scanCallback : filepath.WalkFunc (list string) :=
  fun path f _ placeholder =>
    match f with
    | None => Panic "invalid memory address or nil pointer dereference"
    | Some fi =>
        if negb (IsDir fi) then Ok None (placeholder ++ [path])
        else Ok None placeholder
    end.

Definition scanRoot2Slice (root : string) (placeholder : list string)
  : M (list string * error) :=
  fun s =>
    match filepath.Walk scanCallback root (lstat s root) placeholder with
    | Ok e placeholder' => Ok (placeholder', e) s
    | Panic msg => Panic msg
    end.

Definition scanContext (t : Task) : M (list string * error) :=
  scanRoot2Slice (Context (config t)) [].

(** The [for _, val := range allIgnored] loop of [scanIgnored]. *)
Fixpoint scanIgnored_range (allIgnored : list string) (resolvedignores : list string)
  : M (list string * error) :=
  match allIgnored with
  | [] => ret (resolvedignores, None)
  | val :: rest =>
      '(resolvedignores', e) <- scanRoot2Slice val resolvedignores ;;
      match e with
      | Some e' => ret (resolvedignores', Some e')
      | None => scanIgnored_range rest resolvedignores'
      end
  end.

Definition scanIgnored (t : Task) : M (list string * error) :=
  '(allIgnored, e) <- dockerignore.ReadAll ;;
  match e with
  | Some e' => ret ([], Some e')
  | None => scanIgnored_range allIgnored []
  end.

(** The two scans run in goroutines of their own and are joined through
    channels.  Both only read the file system and fill a result of their
      own, so the join sees what running one after the other gives; a panic
    in either goroutine ends the program. *)
Definition getTarContext (t : Task) : M (list string * error) :=
  ctxFiles <- scanContext t ;;
  ignoredFiles <- scanIgnored t ;;
  match ctxFiles.2 with
  | Some e => ret ([], Some e)
  | None =>
      match ignoredFiles.2 with
      | Some e => ret ([], Some e)
      | None => ret (dockerignore.Difference ctxFiles.1 ignoredFiles.1, None)
      end
  end.

Definition writeDockerfiletoTarBall (t : Task) (tr : tar.Writer)
  : M (error * tar.Writer) :=
  rightNow <- Now ;;
  let stepBytes := list_byte_of_string (Steps (config t)) in
  let header := {| tar.Name := "Dockerfile";
                   tar.Size := Z.of_nat (length stepBytes);
                   tar.Mode := 0;
                   tar.ModTime := rightNow;
                   tar.AccessTime := rightNow;
                   tar.ChangeTime := rightNow |} in
  let '(e, tr1) := tar.WriteHeader header tr in
  match e with
  | Some e' => ret (Some e', tr1)
  | None => ret (tar.Write stepBytes tr1)
  end.

(** The name an archive entry gets for a context file. *)
Definition entryName (t : Task) (file : string) : string :=
  TrimPrefix file (filepath.Base (Context (config t)) +:+ "/").

(** The [for _, file := range paths] loop of [writeFilesToTarBall]. *)
Fixpoint writeFiles_range (t : Task) (paths : list string) (tr : tar.Writer)
  : M (error * tar.Writer) :=
  match paths with
  | [] => ret (None, tr)
  | file :: rest =>
      logger_Debugf t "is writing %s to tarball" (entryName t file) ;;;
      st <- Stat file ;;
      match st with
      | inl e => ret (Some e, tr)
      | inr fileInfo =>
          rd <- ReadFile file ;;
          match rd with
          | inl e => ret (Some e, tr)
          | inr byt =>
              rightNow <- Now ;;
              let header := {| tar.Name := entryName t file;
                               tar.Size := Z.of_nat (length byt);
                               tar.Mode := Mode fileInfo;
                               tar.ModTime := rightNow;
                               tar.AccessTime := rightNow;
                               tar.ChangeTime := rightNow |} in
              let '(e, tr1) := tar.WriteHeader header tr in
              match e with
              | Some e' => ret (Some e', tr1)
              | None =>
                  let '(e2, tr2) := tar.Write byt tr1 in
                  match e2 with
                  | Some e2' => ret (Some e2', tr2)
                  | None => writeFiles_range t rest tr2
                  end
              end
          end
      end
  end.

Definition writeFilesToTarBall (t : Task) (tr : tar.Writer)
  : M (error * tar.Writer) :=
  '(paths, e) <- getTarContext t ;;
  match e with
  | Some e' => ret (Some e', tr)
  | None => writeFiles_range t paths tr
  end.

(** [defer tr.Close()] runs on every return; the caller reads the buffer
    through the returned pointer, so it sees what [Close] left there. *)
Definition writeTarball (t : Task) : M (tar.Buffer * error) :=
  let tr := tar.NewWriter [] in
  '(e, tr1) <- writeDockerfiletoTarBall t tr ;;
  match e with
  | Some e' => ret (tar.w (tar.Close tr1).2, Some e')
  | None =>
      '(e2, tr2) <- writeFilesToTarBall t tr1 ;;
      match e2 with
      | Some e2' => ret (tar.w (tar.Close tr2).2, Some e2')
      | None => ret (tar.w (tar.Close tr2).2, None)
      end
  end.

(** Go ranges over a map in no fixed order; the model lists the entries in
    the order of the finite map. *)
Definition buildArgs (args : gmap string string) : list docker.BuildArg :=
  (fun kv => {| docker.ArgName := kv.1; docker.ArgValue := kv.2 |}) <$> map_to_list args.

Definition commonBuildImageOptions (t : Task) (ctx : ExecuteContext)
  : BuildImageOptions :=
  {| opt_Name := GetImageName ctx (config t);
     opt_Dockerfile := "";
     opt_ContextDir := "";
     opt_InputStream := None;
     opt_BuildArgs := buildArgs (Args (config t));
     opt_Pull := PullBaseImageOnBuild (config t);
     opt_RmTmpContainer := true;
     opt_RawJSONStream := true;
     opt_SuppressOutput := Quiet ctx;
     opt_AuthConfigs := AuthConfigs ctx |}.

Definition set_Dockerfile (d : string) (o : BuildImageOptions) : BuildImageOptions :=
  {| opt_Name := opt_Name o; opt_Dockerfile := d; opt_ContextDir := opt_ContextDir o;
     opt_InputStream := opt_InputStream o; opt_BuildArgs := opt_BuildArgs o;
     opt_Pull := opt_Pull o; opt_RmTmpContainer := opt_RmTmpContainer o;
     opt_RawJSONStream := opt_RawJSONStream o;
     opt_SuppressOutput := opt_SuppressOutput o; opt_AuthConfigs := opt_AuthConfigs o |}.

Definition set_ContextDir (d : string) (o : BuildImageOptions) : BuildImageOptions :=
  {| opt_Name := opt_Name o; opt_Dockerfile := opt_Dockerfile o; opt_ContextDir := d;
     opt_InputStream := opt_InputStream o; opt_BuildArgs := opt_BuildArgs o;
     opt_Pull := opt_Pull o; opt_RmTmpContainer := opt_RmTmpContainer o;
     opt_RawJSONStream := opt_RawJSONStream o;
     opt_SuppressOutput := opt_SuppressOutput o; opt_AuthConfigs := opt_AuthConfigs o |}.

Definition set_InputStream (b : tar.Buffer) (o : BuildImageOptions) : BuildImageOptions :=
  {| opt_Name := opt_Name o; opt_Dockerfile := opt_Dockerfile o;
     opt_ContextDir := opt_ContextDir o;
     opt_InputStream := Some b; opt_BuildArgs := opt_BuildArgs o;
     opt_Pull := opt_Pull o; opt_RmTmpContainer := opt_RmTmpContainer o;
     opt_RawJSONStream := opt_RawJSONStream o;
     opt_SuppressOutput := opt_SuppressOutput o; opt_AuthConfigs := opt_AuthConfigs o |}.

Definition buildImageFromDockerfile (t : Task) (ctx : ExecuteContext) : M error :=
  Stream (
    let opts := commonBuildImageOptions t ctx in
    let opts := set_Dockerfile (Dockerfile (config t)) opts in
    let opts := set_ContextDir (Context (config t)) opts in
    Client_BuildImage opts).

Definition buildImageFromSteps (t : Task) (ctx : ExecuteContext) : M error :=
  '(inputbuf, e) <- writeTarball t ;;
  match e with
  | Some e' => ret (Some e')
  | None =>
      Stream (
        let opts := commonBuildImageOptions t ctx in
        let opts := set_InputStream inputbuf opts in
        Client_BuildImage opts)
  end.

Definition buildImage (ctx : ExecuteContext) (t : Task) : M error :=
  e <- (if negb (String.eqb (Steps (config t)) "")
        then buildImageFromSteps t ctx
        else buildImageFromDockerfile t ctx) ;;
  match e with
  | Some e' => ret (Some e')
  | None =>
      '(image, e1) <- GetImage ctx (config t) ;;
      match e1 with
      | Some e1' => ret (Some e1')
      | None =>
          let record := {| ImageID := docker.ID image; Info := None |} in
          updateImageRecord (recordPath ctx (config t)) record
      end
  end.

Definition buildIsStale (ctx : ExecuteContext) (t : Task) : M (bool * error) :=
  '(image, e) <- GetImage ctx (config t) ;;
  match e with
  | Some ErrNoSuchImage =>
      logger_Debug t "Image does not exist" ;;;
      ret (true, None)
  | Some e' => ret (true, Some e')
  | None =>
      '(mtime, e1) <- fs.LastModified (Context (config t)) ;;
      match e1 with
      | Some e1' =>
          logger_Warn t "Failed to get last modified time of context." ;;;
          ret (true, Some e1')
      | None =>
          '(record, e2) <- getImageRecord (recordPath ctx (config t)) ;;
          match e2 with
          | Some e2' =>
              logger_Warnf t "Failed to get image record: %s" e2' ;;;
              if Before (docker.Created image) mtime
              then logger_Debug t "Image older than context" ;;; ret (true, None)
              else ret (false, None)
          | None =>
              if negb (String.eqb (docker.ID image) (ImageID record))
              then logger_Debug t "Image record older than context" ;;; ret (true, None)
              else
                match Info record with
                | None => panic "invalid memory address or nil pointer dereference"
                | Some info =>
                    if Before (ModTime info) mtime
                    then logger_Debug t "Image record older than context" ;;;
                         ret (true, None)
                    else ret (false, None)
                end
          end
      end
  end.

Definition RunBuild (ctx : ExecuteContext) (t : Task) (hasModifiedDeps : bool)
  : M (bool * error) :=
  let build : M (bool * error) :=
    logger_Debug t "is stale" ;;;
    e <- buildImage ctx t ;;
    match e with
    | Some e' => ret (false, Some e')
    | None =>
        '(image, e1) <- GetImage ctx (config t) ;;
        match e1 with
        | Some e1' => ret (false, Some e1')
        | None =>
            let record := {| ImageID := docker.ID image; Info := None |} in
            e2 <- updateImageRecord (recordPath ctx (config t)) record ;;
            match e2 with
            | Some e2' => logger_Warnf t "Failed to update image record: %s" e2'
            | None => ret tt
            end ;;;
            logger_Info t "Created" ;;;
            ret (true, None)
        end
    end in
  if negb hasModifiedDeps then
    '(stale, e) <- buildIsStale ctx t ;;
    match e with
    | Some e' => ret (false, Some e')
    | None =>
        if negb stale then logger_Info t "is fresh" ;;; ret (false, None)
        else build
    end
  else build.

End Build.

(** ** Vocabulary of the specification *)

(** What a call returned, if it returned. *)
Definition returned {S A} (o : Outcome S A) : option A :=
  match o with
  | Ok a _ => Some a
  | Panic _ => None
  end.

(** The world a call left behind, if it returned. *)
Definition final {S A} (o : Outcome S A) : option S :=
  match o with
  | Ok _ s => Some s
  | Panic _ => None
  end.

Definition panicked {S A} (o : Outcome S A) : bool :=
  match o with
  | Ok _ _ => false
  | Panic _ => true
  end.

(** The build requests among some events, in order. *)
Fixpoint requests (evs : list Event) : list BuildImageOptions :=
  match evs with
  | [] => []
  | EvBuildImage opts :: rest => opts :: requests rest
  | _ :: rest => requests rest
  end.

(** Events that compute the context modification time or read a record. *)
Definition is_probe (ev : Event) : bool :=
  match ev with
  | EvLastModified _ | EvReadRecord _ => true
  | _ => false
  end.

(** Events that are warnings. *)
Definition is_warning (ev : Event) : bool :=
  match ev with
  | EvLog WarnLevel _ | EvLogErr WarnLevel _ _ | EvLogStr WarnLevel _ _ => true
  | _ => false
  end.

(** A walk meets no error anywhere in the tree: every entry can be lstat-ed
    and every directory listed. *)
Fixpoint walkable (n : filepath.FsEntry) : bool :=
  match n with
  | filepath.NoEntry _ => false
  | filepath.Entry info readErr names =>
      negb (IsDir info)
      || (bool_decide (readErr = None)
          && (fix all (l : list (string * filepath.FsEntry)) : bool :=
                match l with
                | [] => true
                | (_, child) :: rest => walkable child && all rest
                end) names)
  end.

(** The specification's path scan: the non-directory entries of the tree
    rooted at [path], in traversal order. *)
Fixpoint nonDirectories (path : string) (n : filepath.FsEntry) : list string :=
  match n with
  | filepath.NoEntry _ => []
  | filepath.Entry info _ names =>
      if IsDir info
      then (fix below (l : list (string * filepath.FsEntry)) : list string :=
              match l with
              | [] => []
              | (name, child) :: rest =>
                  nonDirectories (filepath.Join path name) child ++ below rest
              end) names
      else [path]
  end.

(** The archive member the packer is to emit for a context file read at
    clock reading [now]. *)
Definition memberFor (t : Task) (file : string) (fileInfo : FileInfo)
           (byt : list byte) (now : Time) : tar.Member :=
  {| tar.header := {| tar.Name := entryName t file;
                      tar.Size := Z.of_nat (length byt);
                      tar.Mode := Mode fileInfo;
                      tar.ModTime := now;
                      tar.AccessTime := now;
                      tar.ChangeTime := now |};
     tar.body := byt |}.


(** ** Vocabulary for the effects of a call *)

(** Parts of the world no call of the task ever changes, and the clock
    readings, which only grow in number. *)
Record evolves (s s' : World) : Prop := mkEvolves {
  ev_lookupFault : lookupFault s' = lookupFault s;
  ev_buildOutcome : buildOutcome s' = buildOutcome s;
  ev_lstat : lstat s' = lstat s;
  ev_statOf : statOf s' = statOf s;
  ev_contentOf : contentOf s' = contentOf s;
  ev_lastModifiedOf : lastModifiedOf s' = lastModifiedOf s;
  ev_ignoreSources : ignoreSources s' = ignoreSources s;
  ev_timeline : timeline s' = timeline s;
  ev_reads : (reads s <= reads s')%nat
}.

(** Debug lines of the packer. *)
Definition is_chatter (ev : Event) : bool :=
  match ev with
  | EvLogStr DebugLevel _ _ => true
  | _ => false
  end.

(** A call was quiet when all it did was read the clock and log debug
    lines. *)
Definition quiet (s s' : World) : Prop :=
  exists k evs,
    forallb is_chatter evs = true
    /\ s' = with_trace (trace s ++ evs) (with_reads (reads s + k) s).

(** The outcome of a call that leaves the world alone, seen from another
    world. *)
Definition onWorld {A} (s : World) (o : Outcome World A) : Outcome World A :=
  match o with
  | Ok a _ => Ok a s
  | Panic msg => Panic msg
  end.

(** The error, if any, that packing one context file meets: its stat, or
    else its read. *)
Definition fileError (s : World) (file : string) : error :=
  match statOf s file with
  | inl e => Some e
  | inr _ =>
      match contentOf s file with
      | inl e => Some e
      | inr _ => None
      end
  end.

(** The error of the first file that cannot be packed. *)
Fixpoint firstError (s : World) (paths : list string) : error :=
  match paths with
  | [] => None
  | file :: rest =>
      match fileError s file with
      | Some e => Some e
      | None => firstError s rest
      end
  end.

(** The archive member for the build-step text, packed at [now]. *)
Definition dockerfileMember (t : Task) (now : Time) : tar.Member :=
  {| tar.header := {| tar.Name := "Dockerfile";
                      tar.Size := Z.of_nat (String.length (Steps (config t)));
                      tar.Mode := 0;
                      tar.ModTime := now;
                      tar.AccessTime := now;
                      tar.ChangeTime := now |};
     tar.body := list_byte_of_string (Steps (config t)) |}.

(** The members the packer emits for the files it can pack, up to the first
    that fails; the file at position [i] is stamped with clock reading
    [k + i]. *)
Fixpoint packed (t : Task) (s : World) (paths : list string) (k : nat) : list tar.Member :=
  match paths with
  | [] => []
  | file :: rest =>
      match statOf s file, contentOf s file with
      | inr fileInfo, inr byt =>
          memberFor t file fileInfo byt (timeline s k) :: packed t s rest (S k)
      | _, _ => []
      end
  end.

(** The blocks of a complete member. *)
Definition chunksOf (m : tar.Member) : tar.Buffer :=
  [tar.HeaderBlock (tar.header m); tar.Data (tar.body m)].

(** A member whose body has the size its header announces. *)
Definition wellSized (m : tar.Member) : Prop :=
  tar.Size (tar.header m) = Z.of_nat (length (tar.body m)).

(** The writer after complete members [ms]. *)
Definition writerAfter (ms : list tar.Member) : tar.Writer :=
  {| tar.w := concat (chunksOf <$> ms); tar.nb := 0;
     tar.closed := false; tar.werr := None |}.


(** ** Concrete tasks and worlds *)

Module Scenario.

Definition nameOf (ctx : ExecuteContext) (conf : ImageConfig) : string := Image conf.

Definition pathOf (ctx : ExecuteContext) (conf : ImageConfig) : string :=
  WorkingDir ctx +:+ "/.dobi/images/" +:+ Image conf.

Definition ctx0 : ExecuteContext :=
  {| WorkingDir := "/work"; Quiet := false; AuthConfigs := [] |}.

(** A task built from a Dockerfile, and one built from inline steps that
    also names a Dockerfile. *)
Definition fromDockerfile : Task :=
  {| name := "app";
     config := {| Image := "app"; Dockerfile := "Dockerfile"; Context := "app";
                  Steps := ""; Args := ∅; PullBaseImageOnBuild := false |} |}.

Definition fromSteps : Task :=
  {| name := "app";
     config := {| Image := "app"; Dockerfile := "Dockerfile"; Context := "app";
                  Steps := "FROM x"; Args := ∅; PullBaseImageOnBuild := false |} |}.

Definition regular : FileInfo := {| IsDir := false; Mode := 420; ModTime := 5 |}.
Definition directory : FileInfo := {| IsDir := true; Mode := 493; ModTime := 5 |}.

(** [app/] holds [main.go], a directory [private/] that cannot be listed,
    and [run.sh]. *)
Definition appTree : filepath.FsEntry :=
  filepath.Entry directory None
    [("main.go", filepath.Entry regular None []);
     ("private", filepath.Entry directory (Some (ErrOther "permission denied"))
                  [("key", filepath.Entry regular None [])]);
     ("run.sh", filepath.Entry regular None [])].

(** [lib/] holds two files and a readable directory. *)
Definition libTree : filepath.FsEntry :=
  filepath.Entry directory None
    [("a.go", filepath.Entry regular None []);
     ("sub", filepath.Entry directory None [("b.go", filepath.Entry regular None [])])].

Definition disk (root : string) : filepath.FsEntry :=
  if String.eqb root "app" then appTree
  else if String.eqb root "lib" then libTree
  else filepath.NoEntry (ErrOther "no such file or directory").

(** No image, no record; the engine builds image [sha1]; the context was
    last modified at 5 and the clock reads 100, 101, ... *)
Definition fresh : World :=
  {| images := ∅;
     lookupFault := None;
     buildOutcome := fun _ => inr {| docker.ID := "sha1"; docker.Created := 50 |};
     lstat := disk;
     statOf := fun _ => inr regular;
     contentOf := fun _ => inr [];
     lastModifiedOf := fun _ => inr 5;
     ignoreSources := inr [];
     recordFiles := ∅;
     writeFaults := [];
     timeline := fun n => 100 + Z.of_nat n;
     reads := 0;
     trace := [] |}.

(** As [fresh], but the first write of the record file fails. *)
Definition recordUnwritable : World :=
  with_writeFaults [Some (ErrOther "permission denied")] fresh.

(** Image [new] exists, created at 50. *)
Definition built : World :=
  with_images {[ "app" := {| docker.ID := "new"; docker.Created := 50 |} ]} fresh.

(** As [built], with a record for image [old] written at 900. *)
Definition recordOfOld : World :=
  with_records {[ "/work/.dobi/images/app" := {| stored := inr "old"; mtime := 900 |} ]} built.

(** As [built], with a record for image [new] written at 5, the very
    instant of the last change to the context. *)
Definition recordTied : World :=
  with_records {[ "/work/.dobi/images/app" := {| stored := inr "new"; mtime := 5 |} ]} built.

(** As [built], with a record file that cannot be decoded. *)
Definition recordCorrupt : World :=
  with_records {[ "/work/.dobi/images/app" :=
                    {| stored := inl (ErrOther "yaml: unmarshal error"); mtime := 900 |} ]} built.

(** The engine cannot be reached. *)
Definition engineDown : World :=
  {| images := ∅;
     lookupFault := Some (ErrOther "cannot connect to the Docker daemon");
     buildOutcome := buildOutcome fresh;
     lstat := disk;
     statOf := statOf fresh;
     contentOf := contentOf fresh;
     lastModifiedOf := lastModifiedOf fresh;
     ignoreSources := inr [];
     recordFiles := ∅;
     writeFaults := [];
     timeline := timeline fresh;
     reads := 0;
     trace := [] |}.

(** As [fresh], with an ignore file that lists [lib] and a directory that
    does not exist. *)
Definition ignoringMissing : World :=
  {| images := ∅;
     lookupFault := None;
     buildOutcome := buildOutcome fresh;
     lstat := disk;
     statOf := statOf fresh;
     contentOf := contentOf fresh;
     lastModifiedOf := lastModifiedOf fresh;
     ignoreSources := inr ["lib"; "node_modules"];
     recordFiles := ∅;
     writeFaults := [];
     timeline := timeline fresh;
     reads := 0;
     trace := [] |}.

(** As [fresh], but a file of the context carries a modification time
    (1000) ahead of the clock. *)
Definition futureDated : World :=
  {| images := ∅;
     lookupFault := None;
     buildOutcome := buildOutcome fresh;
     lstat := disk;
     statOf := statOf fresh;
     contentOf := contentOf fresh;
     lastModifiedOf := fun _ => inr 1000;
     ignoreSources := inr [];
     recordFiles := ∅;
     writeFaults := [];
     timeline := timeline fresh;
     reads := 0;
     trace := [] |}.

(** As [fresh], but the context cannot be scanned for its latest
    modification time. *)
Definition contextUnscannable : World :=
  {| images := ∅;
     lookupFault := None;
     buildOutcome := buildOutcome fresh;
     lstat := disk;
     statOf := statOf fresh;
     contentOf := contentOf fresh;
     lastModifiedOf := fun _ => inl (ErrOther "permission denied");
     ignoreSources := inr [];
     recordFiles := ∅;
     writeFaults := [];
     timeline := timeline fresh;
     reads := 0;
     trace := [] |}.

(** A task built from inline steps whose context is [lib], in a world
    whose ignore file lists [lib] itself. *)
Definition libTask : Task :=
  {| name := "lib";
     config := {| Image := "lib"; Dockerfile := ""; Context := "lib";
                  Steps := "FROM x"; Args := ∅; PullBaseImageOnBuild := false |} |}.

Definition ignoringLib : World :=
  {| images := ∅;
     lookupFault := None;
     buildOutcome := buildOutcome fresh;
     lstat := disk;
     statOf := statOf fresh;
     contentOf := contentOf fresh;
     lastModifiedOf := lastModifiedOf fresh;
     ignoreSources := inr ["lib"];
     recordFiles := ∅;
     writeFaults := [];
     timeline := timeline fresh;
     reads := 0;
     trace := [] |}.

(** As [fresh], but [app/run.sh] cannot be read. *)
Definition unreadableFile : World :=
  {| images := ∅;
     lookupFault := None;
     buildOutcome := buildOutcome fresh;
     lstat := disk;
     statOf := statOf fresh;
     contentOf := fun file => if String.eqb file "app/run.sh"
                              then inl (ErrOther "permission denied") else inr [];
     lastModifiedOf := lastModifiedOf fresh;
     ignoreSources := inr [];
     recordFiles := ∅;
     writeFaults := [];
     timeline := timeline fresh;
     reads := 0;
     trace := [] |}.

End Scenario.


(** ** Further vocabulary: what the scans and the packer produce *)

(** What a scan of the tree at [path] yields: the non-directory entries in
    traversal order, where a directory that cannot be listed contributes
    nothing; [None] when the walk reaches an entry that cannot be lstat-ed
    (the closure then dereferences a nil [FileInfo]). *)
Fixpoint listing (path : string) (n : filepath.FsEntry) : option (list string) :=
  match n with
  | filepath.NoEntry _ => None
  | filepath.Entry info readErr names =>
      if IsDir info
      then match readErr with
           | Some _ => Some []
           | None =>
               (fix below (l : list (string * filepath.FsEntry)) : option (list string) :=
                  match l with
                  | [] => Some []
                  | (name, child) :: rest =>
                      match listing (filepath.Join path name) child with
                      | None => None
                      | Some here =>
                          match below rest with
                          | None => None
                          | Some there => Some (here ++ there)
                          end
                      end
                  end) names
           end
      else Some [path]
  end.

(** The files the ignore patterns resolve to, pattern by pattern. *)
Definition resolved (s : World) (patterns : list string) : list string :=
  flat_map (fun root => nonDirectories root (lstat s root)) patterns.

(** The record writes among some events: path and image id, in order. *)
Fixpoint recordWrites (evs : list Event) : list (string * string) :=
  match evs with
  | [] => []
  | EvWriteRecord path id :: rest => (path, id) :: recordWrites rest
  | _ :: rest => recordWrites rest
  end.

(** The engine lookups among some events. *)
Fixpoint lookups (evs : list Event) : list string :=
  match evs with
  | [] => []
  | EvInspectImage image :: rest => image :: lookups rest
  | _ :: rest => lookups rest
  end.


(** A wall clock that never runs backwards. *)
Definition monotone (clock : nat -> Time) : Prop :=
  forall i j, (i <= j)%nat -> clock i <= clock j.

(** The staleness verdict as a function of what the check consults: the
    engine's answer for the image [image], the context's latest modification
    time under [dir], and the record file at [path]. *)
Definition verdict (image path dir : string) (s : World) : bool * error :=
  match lookupFault s with
  | Some ErrNoSuchImage => (true, None)
  | Some e => (true, Some e)
  | None =>
      match images s !! image with
      | None => (true, None)
      | Some img =>
          match lastModifiedOf s dir with
          | inl e => (true, Some e)
          | inr tm =>
              let fallback := (docker.Created img <? tm, None) in
              match recordFiles s !! path with
              | None => fallback
              | Some f =>
                  match stored f with
                  | inl _ => fallback
                  | inr id =>
                      (negb (String.eqb (docker.ID img) id) || (mtime f <? tm), None)
                  end
              end
          end
      end
  end.

(** The options every build request of a task carries, whichever way the
    image is built. *)
Definition taskOptions (image : string) (ctx : ExecuteContext) (t : Task)
           (opts : BuildImageOptions) : Prop :=
  opt_Name opts = image
  /\ opt_BuildArgs opts = buildArgs (Args (config t))
  /\ opt_Pull opts = PullBaseImageOnBuild (config t)
  /\ opt_RmTmpContainer opts = true
  /\ opt_RawJSONStream opts = true
  /\ opt_SuppressOutput opts = Quiet ctx
  /\ opt_AuthConfigs opts = AuthConfigs ctx
  /\ (if String.eqb (Steps (config t)) ""
      then opt_InputStream opts = None
           /\ opt_Dockerfile opts = Dockerfile (config t)
           /\ opt_ContextDir opts = Context (config t)
      else is_Some (opt_InputStream opts)
           /\ opt_Dockerfile opts = "" /\ opt_ContextDir opts = "").

(** How a run ends once the engine has been sent the request [opts], told
    by what the world answers: the engine's verdict on the request, the
    lookup that follows a successful build, and the outcome of the record
    writes.  [r] is the run's result, [s'] the world it leaves and [writes]
    the record writes it attempted. *)
Definition afterRequest (image path : string) (opts : BuildImageOptions)
           (s s' : World) (r : bool * error) (writes : list (string * string)) : Prop :=
  match buildOutcome s opts with
  | inl be =>
      r = (false, Some be)
      /\ images s' = images s /\ recordFiles s' = recordFiles s /\ writes = []
  | inr img =>
      images s' = <[image := img]> (images s)
      /\ match lookupFault s with
         | Some le =>
             r = (false, Some le) /\ recordFiles s' = recordFiles s /\ writes = []
         | None =>
             match writeFaults s with
             | Some we :: _ =>
                 r = (false, Some we)
                 /\ recordFiles s' = recordFiles s
                 /\ writes = [(path, docker.ID img)]
             | _ =>
                 r = (true, None)
                 /\ writes = [(path, docker.ID img); (path, docker.ID img)]
                 /\ exists k,
                     (reads s <= k < reads s')%nat
                     /\ recordFiles s'
                        = <[path := {| stored := inr (docker.ID img);
                                       mtime := timeline s k |}]> (recordFiles s)
             end
         end
  end.

(** More concrete worlds. *)
Module Cases.



(** As [Scenario.fresh], but the ignore file cannot be read; the context
    of [Scenario.libTask] can be walked. *)
Definition ignoreUnreadable : World :=
  {| images := ∅;
     lookupFault := None;
     buildOutcome := buildOutcome Scenario.fresh;
     lstat := Scenario.disk;
     statOf := statOf Scenario.fresh;
     contentOf := contentOf Scenario.fresh;
     lastModifiedOf := lastModifiedOf Scenario.fresh;
     ignoreSources := inl (ErrOther "open .dockerignore: permission denied");
     recordFiles := ∅;
     writeFaults := [];
     timeline := timeline Scenario.fresh;
     reads := 0;
     trace := [] |}.

(** As [Scenario.recordOfOld], but the context cannot be scanned for its
    latest modification time. *)
Definition builtUnscannable : World :=
  {| images := images Scenario.built;
     lookupFault := None;
     buildOutcome := buildOutcome Scenario.fresh;
     lstat := Scenario.disk;
     statOf := statOf Scenario.fresh;
     contentOf := contentOf Scenario.fresh;
     lastModifiedOf := fun _ => inl (ErrOther "permission denied");
     ignoreSources := inr [];
     recordFiles := recordFiles Scenario.recordOfOld;
     writeFaults := [];
     timeline := timeline Scenario.fresh;
     reads := 0;
     trace := [] |}.

(** As [Scenario.recordTied], but the context was last modified at 6, after
    the record was written. *)
Definition touched : World :=
  {| images := images Scenario.recordTied;
     lookupFault := None;
     buildOutcome := buildOutcome Scenario.fresh;
     lstat := Scenario.disk;
     statOf := statOf Scenario.fresh;
     contentOf := contentOf Scenario.fresh;
     lastModifiedOf := fun _ => inr 6;
     ignoreSources := inr [];
     recordFiles := recordFiles Scenario.recordTied;
     writeFaults := [];
     timeline := timeline Scenario.fresh;
     reads := 0;
     trace := [] |}.

(** As [touched], but the context was modified again at 7. *)
Definition touchedAgain : World :=
  {| images := images Scenario.recordTied;
     lookupFault := None;
     buildOutcome := buildOutcome Scenario.fresh;
     lstat := Scenario.disk;
     statOf := statOf Scenario.fresh;
     contentOf := contentOf Scenario.fresh;
     lastModifiedOf := fun _ => inr 7;
     ignoreSources := inr [];
     recordFiles := recordFiles Scenario.recordTied;
     writeFaults := [];
     timeline := timeline Scenario.fresh;
     reads := 0;
     trace := [] |}.

(** As [Scenario.built], but the engine refuses every build. *)
Definition engineRefuses : World :=
  {| images := images Scenario.built;
     lookupFault := None;
     buildOutcome := fun _ => inl (ErrOther "build failed");
     lstat := Scenario.disk;
     statOf := statOf Scenario.fresh;
     contentOf := contentOf Scenario.fresh;
     lastModifiedOf := lastModifiedOf Scenario.fresh;
     ignoreSources := inr [];
     recordFiles := recordFiles Scenario.recordOfOld;
     writeFaults := [];
     timeline := timeline Scenario.fresh;
     reads := 0;
     trace := [] |}.

End Cases.


(** * Properties *)

(** ** Running the monad *)

Lemma bind_Ok {S A B} (m : ST S A) (k : A -> ST S B) s a s' :
  m s = Ok a s' -> bind m k s = k a s'.
Proof. intros H. unfold bind. now rewrite H. Qed.

Lemma bind_Panic {S A B} (m : ST S A) (k : A -> ST S B) s msg :
  m s = Panic msg -> bind m k s = Panic msg.
Proof. intros H. unfold bind. now rewrite H. Qed.

Lemma bind_Ok_inv {S A B} (m : ST S A) (k : A -> ST S B) s b s' :
  bind m k s = Ok b s' -> exists a s1, m s = Ok a s1 /\ k a s1 = Ok b s'.
Proof.
  unfold bind. destruct (m s) as [a s1|msg]; [eauto | discriminate].
Qed.

Lemma emit_Ok ev s : emit ev s = Ok tt (with_trace (trace s ++ [ev]) s).
Proof. reflexivity. Qed.

(** ** The staleness oracle *)

Section Staleness.

Variable GetImageName : ExecuteContext -> ImageConfig -> string.
Variable recordPath : ExecuteContext -> ImageConfig -> string.

(** The lookup only adds its own event to the world. *)
Lemma GetImage_world ctx conf s img e s1 :
  GetImage GetImageName ctx conf s = Ok (img, e) s1 ->
  s1 = with_trace (trace s ++ [EvInspectImage (GetImageName ctx conf)]) s.
Proof.
  unfold GetImage. rewrite (bind_Ok _ _ _ _ _ (emit_Ok _ _)).
  unfold bind, get, ret. cbn.
  destruct (lookupFault s); [|destruct (images s !! GetImageName ctx conf)]; congruence.
Qed.

(** A record that was read carries the stat-info of its file. *)
Lemma getImageRecord_Info path s record s1 :
  getImageRecord path s = Ok (record, None) s1 ->
  exists info, Info record = Some info.
Proof.
  unfold getImageRecord. rewrite (bind_Ok _ _ _ _ _ (emit_Ok _ _)).
  unfold bind, get, ret. cbn.
  destruct (recordFiles s !! path) as [f|]; [|discriminate].
  destruct (stored f); [discriminate|].
  intros [= <- _]. eauto.
Qed.

(** C4. When the engine's lookup reports "no such image" the staleness
    check returns stale=true with a nil error at once: beyond the lookup it
    only logs a debug line, so no context modification time is computed and
    no record is read.  On any other lookup error it returns stale=true
    together with that error. *)
Theorem buildIsStale_lookup_error ctx t s img e s1 :
  GetImage GetImageName ctx (config t) s = Ok (img, Some e) s1 ->
  exists evs,
    buildIsStale GetImageName recordPath ctx t s
    = Ok (true, if decide (e = ErrNoSuchImage) then None else Some e)
         (with_trace (trace s ++ EvInspectImage (GetImageName ctx (config t)) :: evs) s)
    /\ existsb is_probe evs = false
    /\ evs = (if decide (e = ErrNoSuchImage)
              then [EvLog DebugLevel "Image does not exist"] else []).
Proof.
  intros H. pose proof (GetImage_world _ _ _ _ _ _ H) as ->.
  unfold buildIsStale. rewrite (bind_Ok _ _ _ _ _ H). cbn.
  destruct (decide (e = ErrNoSuchImage)) as [->|Hne].
  - eexists. split; [|split]; [| |reflexivity]; try reflexivity.
    unfold logger_Debug. cbn. now rewrite <- app_assoc.
  - exists []. repeat split. destruct e; try reflexivity. congruence.
Qed.

(** C2. When the lookup, the context scan and the record read all succeed,
    the check is stale exactly if the record's image id differs from the
    image's, or the record file was modified strictly before the context;
    so an id mismatch is stale whatever the timestamps, and a tie is
    fresh. *)
Theorem buildIsStale_record_readable ctx t s image s1 mtime s2 record s3 :
  GetImage GetImageName ctx (config t) s = Ok (image, None) s1 ->
  fs.LastModified (Context (config t)) s1 = Ok (mtime, None) s2 ->
  getImageRecord (recordPath ctx (config t)) s2 = Ok (record, None) s3 ->
  exists info stale,
    (Info record = Some info)
    /\ returned (buildIsStale GetImageName recordPath ctx t s) = Some (stale, None)
    /\ stale = (negb (String.eqb (docker.ID image) (ImageID record))
                || (ModTime info <? mtime))
    /\ (docker.ID image <> ImageID record -> stale = true)
    /\ (docker.ID image = ImageID record -> ModTime info = mtime -> stale = false).
Proof.
  intros Himg Hmod Hrec.
  destruct (getImageRecord_Info _ _ _ _ Hrec) as [info Hinfo].
  exists info,
    (negb (String.eqb (docker.ID image) (ImageID record)) || (ModTime info <? mtime)).
  split; [exact Hinfo|]. split; [|split; [reflexivity|split]].
  - unfold buildIsStale.
    rewrite (bind_Ok _ _ _ _ _ Himg). cbn.
    rewrite (bind_Ok _ _ _ _ _ Hmod). cbn.
    rewrite (bind_Ok _ _ _ _ _ Hrec). cbn.
    rewrite Hinfo. unfold Before.
    destruct (String.eqb (docker.ID image) (ImageID record)); cbn; [|reflexivity].
    destruct (ModTime info <? mtime); reflexivity.
  - intros Hne. apply String.eqb_neq in Hne. now rewrite Hne.
  - intros Heq ->. apply String.eqb_eq in Heq. rewrite Heq, Z.ltb_irrefl. reflexivity.
Qed.

(** C3. When the lookup and the context scan succeed but reading the record
    fails, the read error is not returned: the check answers stale=true
    with a nil error if the image was created strictly before the context
    was last modified, and stale=false with a nil error otherwise; the
    failure is logged as a warning. *)
Theorem buildIsStale_record_unreadable ctx t s image s1 mtime s2 record e s3 :
  GetImage GetImageName ctx (config t) s = Ok (image, None) s1 ->
  fs.LastModified (Context (config t)) s1 = Ok (mtime, None) s2 ->
  getImageRecord (recordPath ctx (config t)) s2 = Ok (record, Some e) s3 ->
  exists s',
    buildIsStale GetImageName recordPath ctx t s = Ok (docker.Created image <? mtime, None) s'
    /\ EvLogErr WarnLevel "Failed to get image record: %s" e ∈ trace s'
    /\ (mtime < docker.Created image -> returned (buildIsStale GetImageName recordPath ctx t s) = Some (false, None)).
Proof.
  intros Himg Hmod Hrec.
  unfold buildIsStale.
  rewrite (bind_Ok _ _ _ _ _ Himg). cbn.
  rewrite (bind_Ok _ _ _ _ _ Hmod). cbn.
  rewrite (bind_Ok _ _ _ _ _ Hrec). cbn.
  unfold Before. destruct (docker.Created image <? mtime) eqn:Hlt; cbn.
  - eexists. split; [reflexivity|]. split.
    + cbn. rewrite !elem_of_app. left. right. apply list_elem_of_singleton. reflexivity.
    + intros Hgt. apply Z.ltb_lt in Hlt. lia.
  - eexists. split; [reflexivity|]. split.
    + cbn. rewrite elem_of_app. right. apply list_elem_of_singleton. reflexivity.
    + reflexivity.
Qed.

End Staleness.


(** ** How the collaborators change the world *)

Lemma evolves_refl s : evolves s s.
Proof. constructor; auto. Qed.

Lemma evolves_trans s1 s2 s3 : evolves s1 s2 -> evolves s2 s3 -> evolves s1 s3.
Proof.
  intros [] []. constructor; try congruence. lia.
Qed.

Lemma evolves_with_trace tr s : evolves s (with_trace tr s).
Proof. constructor; auto. Qed.

Lemma quiet_refl s : quiet s s.
Proof.
  exists 0%nat, []. split; [reflexivity|].
  destruct s; unfold with_trace, with_reads; cbn.
  now rewrite app_nil_r, Nat.add_0_r.
Qed.

Lemma quiet_trans s1 s2 s3 : quiet s1 s2 -> quiet s2 s3 -> quiet s1 s3.
Proof.
  intros (k1 & evs1 & H1 & ->) (k2 & evs2 & H2 & ->).
  exists (k1 + k2)%nat, (evs1 ++ evs2). split.
  - rewrite forallb_app, H1, H2. reflexivity.
  - unfold with_trace, with_reads; cbn. now rewrite app_assoc, Nat.add_assoc.
Qed.

Lemma quiet_evolves s s' : quiet s s' -> evolves s s'.
Proof.
  intros (k & evs & _ & ->). constructor; cbn; auto. lia.
Qed.

Lemma quiet_tick s : quiet s (with_reads (S (reads s)) s).
Proof.
  exists 1%nat, []. split; [reflexivity|].
  unfold with_trace, with_reads; cbn. now rewrite app_nil_r, Nat.add_1_r.
Qed.

Lemma quiet_chatter format arg s :
  quiet s (with_trace (trace s ++ [EvLogStr DebugLevel format arg]) s).
Proof.
  exists 0%nat, [EvLogStr DebugLevel format arg]. split; [reflexivity|].
  unfold with_trace, with_reads; cbn. now rewrite Nat.add_0_r.
Qed.

Lemma chatter_requests evs : forallb is_chatter evs = true -> requests evs = [].
Proof.
  induction evs as [|ev evs IH]; cbn; [reflexivity|].
  intros H. apply andb_true_iff in H as [Hev Hevs].
  destruct ev; try discriminate. auto.
Qed.

Lemma requests_app evs1 evs2 : requests (evs1 ++ evs2) = requests evs1 ++ requests evs2.
Proof.
  induction evs1 as [|ev evs1 IH]; cbn; [reflexivity|].
  destruct ev; cbn; now rewrite ?IH.
Qed.

(** *** Inversion of the collaborators *)

Lemma Now_Ok s : Now s = Ok (timeline s (reads s)) (with_reads (S (reads s)) s).
Proof. reflexivity. Qed.

Lemma Client_BuildImage_Ok opts s :
  Client_BuildImage opts s =
  match buildOutcome s opts with
  | inl e => Ok (Some e) (with_trace (trace s ++ [EvBuildImage opts]) s)
  | inr img =>
      Ok None (with_images (<[opt_Name opts := img]> (images s))
                 (with_trace (trace s ++ [EvBuildImage opts]) s))
  end.
Proof.
  unfold Client_BuildImage. rewrite (bind_Ok _ _ _ _ _ (emit_Ok _ _)).
  unfold bind, get, ret, modify. cbn. destruct (buildOutcome s opts); reflexivity.
Qed.

Lemma updateImageRecord_Ok path record s :
  updateImageRecord path record s =
  match writeFaults s with
  | Some e :: later =>
      Ok (Some e)
         (with_writeFaults later
            (with_trace (trace s ++ [EvWriteRecord path (ImageID record)]) s))
  | outcome =>
      Ok None
         (with_records
            (<[path := {| stored := inr (ImageID record);
                          mtime := timeline s (reads s) |}]> (recordFiles s))
            (with_writeFaults (tail outcome)
               (with_reads (S (reads s))
                  (with_trace (trace s ++ [EvWriteRecord path (ImageID record)]) s))))
  end.
Proof.
  unfold updateImageRecord. rewrite (bind_Ok _ _ _ _ _ (emit_Ok _ _)).
  unfold bind, get, ret, modify, Now. cbn.
  destruct (writeFaults s) as [|[e|] later]; reflexivity.
Qed.

Section Lookup.
Variable GetImageName : ExecuteContext -> ImageConfig -> string.

Lemma GetImage_Ok ctx conf s :
  GetImage GetImageName ctx conf s =
  Ok match lookupFault s with
     | Some e => (docker.noImage, Some e)
     | None =>
         match images s !! GetImageName ctx conf with
         | Some img => (img, None)
         | None => (docker.noImage, Some ErrNoSuchImage)
         end
     end
     (with_trace (trace s ++ [EvInspectImage (GetImageName ctx conf)]) s).
Proof.
  unfold GetImage. rewrite (bind_Ok _ _ _ _ _ (emit_Ok _ _)).
  unfold bind, get, ret. cbn.
  destruct (lookupFault s); [reflexivity|].
  destruct (images s !! GetImageName ctx conf); reflexivity.
Qed.
End Lookup.

Lemma LastModified_Ok dir s :
  fs.LastModified dir s =
  Ok match lastModifiedOf s dir with
     | inl e => (0, Some e)
     | inr tm => (tm, None)
     end
     (with_trace (trace s ++ [EvLastModified dir]) s).
Proof.
  unfold fs.LastModified. rewrite (bind_Ok _ _ _ _ _ (emit_Ok _ _)).
  unfold bind, get, ret. cbn. destruct (lastModifiedOf s dir); reflexivity.
Qed.

Lemma getImageRecord_Ok path s :
  getImageRecord path s =
  Ok match recordFiles s !! path with
     | None => ({| ImageID := ""; Info := None |},
                Some (ErrOther "no such file or directory"))
     | Some f =>
         match stored f with
         | inl e => ({| ImageID := ""; Info := None |}, Some e)
         | inr id =>
             let info := {| IsDir := false; Mode := 0; ModTime := mtime f |} in
             ({| ImageID := id; Info := Some info |}, None)
         end
     end
     (with_trace (trace s ++ [EvReadRecord path]) s).
Proof.
  unfold getImageRecord. rewrite (bind_Ok _ _ _ _ _ (emit_Ok _ _)).
  unfold bind, get, ret. cbn.
  destruct (recordFiles s !! path) as [f|]; [|reflexivity].
  destruct (stored f); reflexivity.
Qed.


(** ** The path scanner *)

Section Scanner.

(** The closure never returns an error: it appends or it panics. *)
Lemma scanCallback_Ok path f e placeholder r placeholder' :
  scanCallback path f e placeholder = Ok r placeholder' -> r = None.
Proof.
  unfold scanCallback. destruct f as [fi|]; [|discriminate].
  destruct (negb (IsDir fi)); congruence.
Qed.

(** So the walk, when it returns, returns nil: whatever error it met on
    the way is lost. *)
Lemma walk_scan_nil n : forall path placeholder r placeholder',
  filepath.walk scanCallback path n placeholder = Ok r placeholder' -> r = None.
Proof.
  induction n as [le|info readErr names IH] using filepath.FsEntry_forall_ind;
    intros path placeholder r placeholder'.
  - cbn [filepath.walk]. apply scanCallback_Ok.
  - cbn [filepath.walk]. unfold bind at 1.
    destruct (scanCallback path (Some info) None placeholder) as [r0 ph0|] eqn:Hcb;
      [|discriminate].
    apply scanCallback_Ok in Hcb as ->.
    destruct (negb (IsDir info)); [unfold ret; congruence|].
    destruct readErr as [re|]; [apply scanCallback_Ok|].
    clear placeholder. revert ph0.
    induction IH as [|[name child] rest Hchild _ IHrest]; intros ph0.
    + unfold ret; congruence.
    + destruct child as [le|cinfo crd cnames].
      * unfold bind at 1.
        destruct (scanCallback _ None (Some le) ph0) as [r1 ph1|] eqn:Hcb; [|discriminate].
        apply scanCallback_Ok in Hcb as ->. apply IHrest.
      * unfold bind at 1.
        destruct (filepath.walk scanCallback _ _ ph0) as [r1 ph1|] eqn:Hw; [|discriminate].
        apply Hchild in Hw as ->. apply IHrest.
Qed.


Lemma scanRoot2Slice_Ok root placeholder s :
  scanRoot2Slice root placeholder s =
  match filepath.Walk scanCallback root (lstat s root) placeholder with
  | Ok e placeholder' => Ok (placeholder', e) s
  | Panic msg => Panic msg
  end.
Proof. reflexivity. Qed.

(** The scan never surfaces an error to its caller, and leaves the world
    as it found it. *)
Lemma scanRoot2Slice_nil root placeholder s paths e s' :
  scanRoot2Slice root placeholder s = Ok (paths, e) s' -> e = None /\ s' = s.
Proof.
  rewrite scanRoot2Slice_Ok. unfold filepath.Walk, bind.
  destruct (filepath.walk scanCallback root (lstat s root) placeholder)
    as [r ph|] eqn:Hw; [|discriminate].
  apply walk_scan_nil in Hw as ->. cbn. intros [= <- <- <-]. auto.
Qed.


(** The scan reads nothing of the world but the tree. *)
Lemma scanRoot2Slice_frame root placeholder s1 s2 :
  lstat s2 = lstat s1 ->
  scanRoot2Slice root placeholder s2 = onWorld s2 (scanRoot2Slice root placeholder s1).
Proof.
  intros H. rewrite !scanRoot2Slice_Ok, H.
  now destruct (filepath.Walk scanCallback root (lstat s1 root) placeholder).
Qed.

Lemma scanIgnored_range_frame allIgnored : forall resolved s1 s2,
  lstat s2 = lstat s1 ->
  scanIgnored_range allIgnored resolved s2
  = onWorld s2 (scanIgnored_range allIgnored resolved s1).
Proof.
  induction allIgnored as [|val rest IH]; intros resolved s1 s2 H; [reflexivity|].
  cbn [scanIgnored_range]. unfold bind.
  rewrite (scanRoot2Slice_frame _ _ s1 s2 H).
  destruct (scanRoot2Slice val resolved s1) as [[paths e] s1'|] eqn:Hscan; [|reflexivity].
  apply scanRoot2Slice_nil in Hscan as [-> ->]. cbn. now apply IH.
Qed.

Lemma scanIgnored_range_nil allIgnored : forall resolved s paths e s',
  scanIgnored_range allIgnored resolved s = Ok (paths, e) s' -> e = None /\ s' = s.
Proof.
  induction allIgnored as [|val rest IH]; intros resolved s paths e s'.
  - cbn. unfold ret. intros [= <- <- <-]. auto.
  - cbn [scanIgnored_range]. unfold bind.
    destruct (scanRoot2Slice val resolved s) as [[paths1 e1] s1|] eqn:Hscan; [|discriminate].
    apply scanRoot2Slice_nil in Hscan as [-> ->]. apply IH.
Qed.

(** The resolution of the ignore patterns returns an error only when the
    pattern sources cannot be read, and then that error. *)
Lemma scanIgnored_error t s paths e s' :
  scanIgnored t s = Ok (paths, Some e) s' -> ignoreSources s = inl e.
Proof.
  unfold scanIgnored, dockerignore.ReadAll, bind, get, ret.
  destruct (ignoreSources s) as [e0|l]; cbn.
  - congruence.
  - intros H. apply scanIgnored_range_nil in H as [? _]. discriminate.
Qed.

Lemma scanIgnored_world t s r s' : scanIgnored t s = Ok r s' -> s' = s.
Proof.
  unfold scanIgnored, dockerignore.ReadAll, bind, get, ret.
  destruct (ignoreSources s) as [e0|l]; cbn.
  - congruence.
  - destruct r. intros H. now apply scanIgnored_range_nil in H as [_ ->].
Qed.

Lemma scanIgnored_frame t s1 s2 :
  lstat s2 = lstat s1 -> ignoreSources s2 = ignoreSources s1 ->
  scanIgnored t s2 = onWorld s2 (scanIgnored t s1).
Proof.
  intros Hl Hi. unfold scanIgnored, dockerignore.ReadAll, bind, get, ret.
  rewrite Hi. destruct (ignoreSources s1); cbn; [reflexivity|].
  now apply scanIgnored_range_frame.
Qed.

(** Assembling the context leaves the world alone and reads only the tree
    and the ignore sources. *)
Lemma getTarContext_world t s r s' : getTarContext t s = Ok r s' -> s' = s.
Proof.
  unfold getTarContext, scanContext, bind.
  destruct (scanRoot2Slice _ [] s) as [[c ce] s1|] eqn:Hc; [|discriminate].
  apply scanRoot2Slice_nil in Hc as [-> ->].
  destruct (scanIgnored t s) as [[i ie] s2|] eqn:Hi; [|discriminate].
  apply scanIgnored_world in Hi as ->. cbn.
  destruct ie; unfold ret; congruence.
Qed.

Lemma getTarContext_frame t s1 s2 :
  lstat s2 = lstat s1 -> ignoreSources s2 = ignoreSources s1 ->
  getTarContext t s2 = onWorld s2 (getTarContext t s1).
Proof.
  intros Hl Hi. unfold getTarContext, scanContext, bind.
  rewrite (scanRoot2Slice_frame _ _ s1 s2 Hl).
  destruct (scanRoot2Slice _ [] s1) as [[c ce] s1'|] eqn:Hc; [|reflexivity].
  apply scanRoot2Slice_nil in Hc as [-> ->]. cbn.
  rewrite (scanIgnored_frame t s1 s2 Hl Hi).
  destruct (scanIgnored t s1) as [[i ie] s1'|] eqn:Hig; [|reflexivity].
  apply scanIgnored_world in Hig as ->. cbn.
  now destruct ie.
Qed.

(** C6. The scan does not surface walk errors.  Under [app/], whose
    directory [private/] cannot be listed, the scan neither aborts nor
    reports the error: it returns the files around the directory with a nil
    error.  At a root that cannot be lstat-ed it does not return at all:
    the closure dereferences the nil [FileInfo] and panics. *)
Theorem scanRoot2Slice_loses_walk_errors :
  walkable (Scenario.disk "app") = false
  /\ returned (scanRoot2Slice "app" [] Scenario.fresh)
     = Some (["app/main.go"; "app/run.sh"], None)
  /\ walkable (Scenario.disk "gone") = false
  /\ panicked (scanRoot2Slice "gone" [] Scenario.fresh) = true.
Proof. repeat split; reflexivity. Qed.

(** C7. Resolving an ignore pattern whose directory does not exist is not
    silently empty: with the patterns [lib] and [node_modules], the latter
    missing on disk, the resolution panics. *)
Theorem scanIgnored_missing_directory_panics :
  Scenario.disk "node_modules" = filepath.NoEntry (ErrOther "no such file or directory")
  /\ panicked (scanIgnored Scenario.fromSteps Scenario.ignoringMissing) = true
  /\ panicked (scanRoot2Slice "node_modules" ["lib/a.go"; "lib/sub/b.go"]
                 Scenario.ignoringMissing) = true.
Proof. repeat split; reflexivity. Qed.

End Scanner.


(** ** The archive packer *)

Section Packer.

Lemma length_list_byte_of_string (s : string) :
  length (list_byte_of_string s) = String.length s.
Proof.
  unfold list_byte_of_string. rewrite length_map.
  induction s as [|c s IH]; cbn; congruence.
Qed.

(** *** The writer *)

(** Writing a header and then exactly the announced bytes adds one
    complete member. *)
Lemma write_member ms m :
  wellSized m ->
  tar.WriteHeader (tar.header m) (writerAfter ms)
  = (None, {| tar.w := tar.w (writerAfter ms) ++ [tar.HeaderBlock (tar.header m)];
              tar.nb := tar.Size (tar.header m);
              tar.closed := false; tar.werr := None |})
  /\ tar.Write (tar.body m)
       {| tar.w := tar.w (writerAfter ms) ++ [tar.HeaderBlock (tar.header m)];
          tar.nb := tar.Size (tar.header m);
          tar.closed := false; tar.werr := None |}
     = (None, writerAfter (ms ++ [m])).
Proof.
  intros Hm. split; [reflexivity|].
  unfold tar.Write. cbn [tar.closed tar.nb tar.w tar.werr].
  rewrite Hm, Z.ltb_irrefl, Z.sub_diag.
  unfold writerAfter. rewrite fmap_app, concat_app. cbn.
  now rewrite <- app_assoc.
Qed.

Lemma members_after m ms :
  Forall wellSized ms ->
  tar.members (Some m) (concat (chunksOf <$> ms) ++ [tar.Trailer]) = m :: ms.
Proof.
  intros H. revert m.
  induction H as [|m1 ms Hm1 _ IH]; intros m; [reflexivity|].
  cbn. f_equal. rewrite Hm1, Nat2Z.id, Nat.sub_0_r, firstn_all.
  destruct m1 as [h1 b1]. apply IH.
Qed.

(** Reading back a closed archive of complete members yields them. *)
Lemma unpack_closed ms :
  Forall wellSized ms ->
  tar.unpack (tar.w (tar.Close (writerAfter ms)).2) = ms.
Proof.
  intros H. cbn. unfold tar.unpack.
  destruct H as [|m1 ms Hm1 Hms]; [reflexivity|].
  cbn. rewrite Hm1, Nat2Z.id, Nat.sub_0_r, firstn_all.
  destruct m1 as [h1 b1]. now apply members_after.
Qed.

(** *** The members *)

Lemma memberFor_wellSized t file fileInfo byt now :
  wellSized (memberFor t file fileInfo byt now).
Proof. reflexivity. Qed.

Lemma dockerfileMember_wellSized t now : wellSized (dockerfileMember t now).
Proof. unfold wellSized. cbn. now rewrite length_list_byte_of_string. Qed.

Lemma packed_wellSized t s paths : forall k, Forall wellSized (packed t s paths k).
Proof.
  induction paths as [|file rest IH]; intros k; cbn; [constructor|].
  destruct (statOf s file); [constructor|].
  destruct (contentOf s file); constructor; auto using memberFor_wellSized.
Qed.

Lemma packed_ext t s1 s2 paths : forall k,
  statOf s2 = statOf s1 -> contentOf s2 = contentOf s1 -> timeline s2 = timeline s1 ->
  packed t s2 paths k = packed t s1 paths k.
Proof.
  induction paths as [|file rest IH]; intros k Hs Hc Ht; cbn; [reflexivity|].
  rewrite Hs, Hc, Ht, IH by assumption. reflexivity.
Qed.

Lemma firstError_ext s1 s2 paths :
  statOf s2 = statOf s1 -> contentOf s2 = contentOf s1 ->
  firstError s2 paths = firstError s1 paths.
Proof.
  intros Hs Hc. induction paths as [|file rest IH]; cbn; [reflexivity|].
  unfold fileError. now rewrite Hs, Hc, IH.
Qed.

(** With every file packable there is one member per path, the member at
    position [i] being that of the path at position [i]. *)
Lemma packed_lookup t s paths : forall k,
  firstError s paths = None ->
  length (packed t s paths k) = length paths
  /\ forall i file, paths !! i = Some file ->
       exists fileInfo byt,
         statOf s file = inr fileInfo /\ contentOf s file = inr byt
         /\ packed t s paths k !! i
            = Some (memberFor t file fileInfo byt (timeline s (k + i))).
Proof.
  induction paths as [|file0 rest IH]; intros k Hok.
  - split; [reflexivity|]. intros i file H. discriminate.
  - cbn in Hok |- *. unfold fileError in Hok.
    destruct (statOf s file0) as [e|fi0] eqn:Hst; [discriminate|].
    destruct (contentOf s file0) as [e|byt0] eqn:Hrd; [discriminate|].
    destruct (IH (S k) Hok) as [Hlen Hnth]. split; [cbn; congruence|].
    intros [|i] file H; cbn in H.
    + injection H as <-. exists fi0, byt0. now rewrite Nat.add_0_r.
    + destruct (Hnth i file H) as (fi & byt & ? & ? & Hi).
      exists fi, byt. repeat split; try assumption.
      rewrite <- Nat.add_succ_comm. exact Hi.
Qed.

(** A file that cannot be packed makes [firstError] an error, namely that
    of some file of the set. *)
Lemma firstError_Some s paths file e :
  file ∈ paths -> fileError s file = Some e ->
  exists file' e', file' ∈ paths /\ fileError s file' = Some e'
                   /\ firstError s paths = Some e'.
Proof.
  induction paths as [|file0 rest IH]; intros Hin He.
  - now apply elem_of_nil in Hin.
  - cbn. destruct (fileError s file0) as [e0|] eqn:H0.
    + exists file0, e0. repeat split; [left|assumption].
    + apply elem_of_cons in Hin as [->|Hin]; [congruence|].
      destruct (IH Hin He) as (file' & e' & ? & ? & ?).
      exists file', e'. repeat split; [now right|assumption|assumption].
Qed.

(** *** The packing functions *)

Lemma writeDockerfiletoTarBall_Ok t s :
  writeDockerfiletoTarBall t (tar.NewWriter []) s
  = Ok (None, writerAfter [dockerfileMember t (timeline s (reads s))])
       (with_reads (S (reads s)) s).
Proof.
  unfold writeDockerfiletoTarBall. rewrite (bind_Ok _ _ _ _ _ (Now_Ok s)).
  pose proof (write_member [] (dockerfileMember t (timeline s (reads s)))
                (dockerfileMember_wellSized _ _)) as [Hh Hw].
  cbn zeta. rewrite length_list_byte_of_string.
  change (tar.NewWriter []) with (writerAfter []).
  change {| tar.Name := "Dockerfile";
            tar.Size := Z.of_nat (String.length (Steps (config t)));
            tar.Mode := 0; tar.ModTime := timeline s (reads s);
            tar.AccessTime := timeline s (reads s);
            tar.ChangeTime := timeline s (reads s) |}
    with (tar.header (dockerfileMember t (timeline s (reads s)))).
  rewrite Hh.
  change (list_byte_of_string (Steps (config t)))
    with (tar.body (dockerfileMember t (timeline s (reads s)))).
  unfold ret. now rewrite Hw.
Qed.

Lemma writeFiles_range_Ok t paths : forall ms s,
  exists s',
    writeFiles_range t paths (writerAfter ms) s
    = Ok (firstError s paths, writerAfter (ms ++ packed t s paths (reads s))) s'
    /\ quiet s s'.
Proof.
  induction paths as [|file rest IH]; intros ms s.
  - exists s. cbn. rewrite app_nil_r. split; [reflexivity|apply quiet_refl].
  - cbn [writeFiles_range firstError packed].
    unfold logger_Debugf. rewrite (bind_Ok _ _ _ _ _ (emit_Ok _ _)).
    set (s1 := with_trace _ s).
    assert (Hq1 : quiet s s1) by apply quiet_chatter.
    unfold Stat, ReadFile, bind at 1, fileError. cbn [statOf contentOf s1 with_trace].
    destruct (statOf s file) as [e|fileInfo] eqn:Hst.
    { exists s1. rewrite app_nil_r. split; [reflexivity|assumption]. }
    unfold bind at 1. cbn [statOf contentOf s1 with_trace].
    destruct (contentOf s file) as [e|byt] eqn:Hrd.
    { exists s1. rewrite app_nil_r. split; [reflexivity|assumption]. }
    rewrite (bind_Ok _ _ _ _ _ (Now_Ok s1)).
    set (s2 := with_reads _ s1).
    assert (Hq2 : quiet s s2) by (eapply quiet_trans; [exact Hq1|apply quiet_tick]).
    pose proof (write_member ms (memberFor t file fileInfo byt (timeline s (reads s)))
                  (memberFor_wellSized _ _ _ _ _)) as [Hh Hw].
    cbn [timeline reads s1 with_trace].
    cbn [memberFor tar.header tar.body] in Hh, Hw.
    rewrite Hh, Hw.
    destruct (IH (ms ++ [memberFor t file fileInfo byt (timeline s (reads s))]) s2)
      as (s' & Hrun & Hq).
    exists s'. split; [|eapply quiet_trans; eassumption].
    rewrite Hrun.
    rewrite (firstError_ext s s2) by reflexivity.
    rewrite (packed_ext t s s2) by reflexivity.
    now rewrite <- app_assoc.
Qed.

(** What a pack gives once the filtered file set is known. *)
Lemma writeTarball_Ok t s paths s1 :
  getTarContext t s = Ok (paths, None) s1 ->
  exists s',
    writeTarball t s
    = Ok (tar.w (tar.Close
                   (writerAfter (dockerfileMember t (timeline s (reads s))
                                 :: packed t s paths (S (reads s))))).2,
          firstError s paths) s'
    /\ quiet s s'.
Proof.
  intros Hctx. pose proof (getTarContext_world _ _ _ _ Hctx) as ->.
  unfold writeTarball. rewrite (bind_Ok _ _ _ _ _ (writeDockerfiletoTarBall_Ok t s)).
  cbn beta iota. set (s2 := with_reads _ s).
  unfold writeFilesToTarBall.
  assert (Hctx2 : getTarContext t s2 = Ok (paths, None) s2).
  { rewrite (getTarContext_frame t s s2) by reflexivity. now rewrite Hctx. }
  unfold bind at 1. rewrite (bind_Ok _ _ _ _ _ Hctx2). cbn beta iota.
  destruct (writeFiles_range_Ok t paths [dockerfileMember t (timeline s (reads s))] s2)
    as (s' & Hrun & Hq).
  rewrite Hrun. cbn beta iota.
  rewrite (firstError_ext s s2) by reflexivity.
  rewrite (packed_ext t s s2) by reflexivity.
  exists s'. split.
  - destruct (firstError s paths); reflexivity.
  - eapply quiet_trans; [apply quiet_tick|exact Hq].
Qed.

(** Whenever a pack returns, it was quiet, and the archive it leaves
    starts with the member for the build-step text. *)
Lemma writeTarball_inv t s buf e s' :
  writeTarball t s = Ok (buf, e) s' ->
  quiet s s'
  /\ exists ms, tar.unpack buf = dockerfileMember t (timeline s (reads s)) :: ms.
Proof.
  unfold writeTarball. rewrite (bind_Ok _ _ _ _ _ (writeDockerfiletoTarBall_Ok t s)).
  cbn beta iota. set (s2 := with_reads _ s).
  unfold writeFilesToTarBall. unfold bind at 1 2.
  destruct (getTarContext t s2) as [[paths ce] s2'|] eqn:Hctx; [|discriminate].
  pose proof (getTarContext_world _ _ _ _ Hctx) as ->.
  destruct ce as [ce|].
  - unfold ret. intros [= <- <- <-]. split; [apply quiet_tick|].
    exists [].
    apply (unpack_closed [dockerfileMember t (timeline s (reads s))]).
    repeat constructor. apply dockerfileMember_wellSized.
  - destruct (writeFiles_range_Ok t paths [dockerfileMember t (timeline s (reads s))] s2)
      as (s3 & Hrun & Hq).
    rewrite Hrun. cbn beta iota. intros H.
    assert (H' : buf = tar.w (tar.Close
                   (writerAfter ([dockerfileMember t (timeline s (reads s))]
                                 ++ packed t s2 paths (reads s2)))).2 /\ s' = s3).
    { destruct (firstError s2 paths); unfold ret in H; injection H as <- <- <-; auto. }
    destruct H' as [-> ->]. split.
    + eapply quiet_trans; [apply quiet_tick|exact Hq].
    + eexists. apply unpack_closed.
      constructor; [apply dockerfileMember_wellSized|apply packed_wellSized].
Qed.

End Packer.


Section Archive.

(** C8. Packing a build-step text with an empty filtered file set and
    unpacking the archive yields exactly one member: it is named
    [Dockerfile], its content is the text verbatim, its size the text's
    byte length, and its modification, access and change times are all the
    reading of the wall clock taken when it was packed. *)
Theorem writeTarball_roundtrip t s s1 :
  getTarContext t s = Ok ([], None) s1 ->
  exists buf s' m now,
    writeTarball t s = Ok (buf, None) s'
    /\ tar.unpack buf = [m]
    /\ returned (Now s) = Some now
    /\ tar.Name (tar.header m) = "Dockerfile"
    /\ string_of_list_byte (tar.body m) = Steps (config t)
    /\ tar.Size (tar.header m) = Z.of_nat (String.length (Steps (config t)))
    /\ tar.ModTime (tar.header m) = now
    /\ tar.AccessTime (tar.header m) = now
    /\ tar.ChangeTime (tar.header m) = now.
Proof.
  intros Hctx. destruct (writeTarball_Ok _ _ _ _ Hctx) as (s' & Hrun & _).
  cbn [firstError packed] in Hrun.
  eexists _, s', (dockerfileMember t (timeline s (reads s))), (timeline s (reads s)).
  split; [exact Hrun|]. split.
  - apply unpack_closed. repeat constructor. apply dockerfileMember_wellSized.
  - repeat split. cbn. apply string_of_list_byte_of_string.
Qed.

(** C9. Once the filtered file set is known, the pack returns the error
    of the first file that cannot be stat-ed or read, if there is one, and
    the build from steps stops there with that error.  If there is none,
    the archive holds, after the [Dockerfile] member, one member per path
    and in the same order: its name is the path with the prefix
    [Base(context) + "/"] trimmed, its size the length of the file's
    content, its mode the file's mode, its body the content, and its three
    timestamps the reading of the wall clock taken for that file. *)
Theorem writeTarball_files t s paths s1 :
  getTarContext t s = Ok (paths, None) s1 ->
  exists buf s',
    writeTarball t s = Ok (buf, firstError s paths) s'
    /\ (firstError s paths = None ->
        length (tar.unpack buf) = S (length paths)
        /\ forall i file, paths !! i = Some file ->
             exists fileInfo byt now,
               statOf s file = inr fileInfo
               /\ contentOf s file = inr byt
               /\ now = timeline s (S (reads s) + i)
               /\ tar.unpack buf !! S i
                  = Some {| tar.header :=
                              {| tar.Name :=
                                   TrimPrefix file
                                     (filepath.Base (Context (config t)) +:+ "/");
                                 tar.Size := Z.of_nat (length byt);
                                 tar.Mode := Mode fileInfo;
                                 tar.ModTime := now;
                                 tar.AccessTime := now;
                                 tar.ChangeTime := now |};
                            tar.body := byt |})
    /\ (forall file e, file ∈ paths -> fileError s file = Some e ->
        exists file' e',
          file' ∈ paths /\ fileError s file' = Some e'
          /\ firstError s paths = Some e')
    /\ (forall e, firstError s paths = Some e ->
        forall GetImageName ctx,
          buildImageFromSteps GetImageName t ctx s = Ok (Some e) s').
Proof.
  intros Hctx. destruct (writeTarball_Ok _ _ _ _ Hctx) as (s' & Hrun & _).
  eexists _, s'. split; [exact Hrun|]. split; [|split].
  - intros Hok.
    rewrite unpack_closed
      by (constructor; [apply dockerfileMember_wellSized|apply packed_wellSized]).
    destruct (packed_lookup t s paths (S (reads s)) Hok) as [Hlen Hnth].
    split; [cbn; now rewrite Hlen|].
    intros i file Hi. destruct (Hnth i file Hi) as (fileInfo & byt & Hst & Hrd & Hm).
    exists fileInfo, byt, (timeline s (S (reads s) + i)).
    repeat split; assumption.
  - intros file e. apply firstError_Some.
  - intros e He GetImageName ctx. unfold buildImageFromSteps.
    rewrite (bind_Ok _ _ _ _ _ Hrun). cbn beta iota. now rewrite He.
Qed.

End Archive.


(** ** Building *)

Section Building.

Variable GetImageName : ExecuteContext -> ImageConfig -> string.
Variable recordPath : ExecuteContext -> ImageConfig -> string.

Lemma quiet_trace s s' :
  quiet s s' -> exists evs, trace s' = trace s ++ evs /\ requests evs = [].
Proof.
  intros (k & evs & Hc & ->). exists evs. split; [reflexivity|].
  now apply chatter_requests.
Qed.

Lemma Client_BuildImage_total opts s :
  exists e s',
    Client_BuildImage opts s = Ok e s' /\ trace s' = trace s ++ [EvBuildImage opts].
Proof.
  rewrite Client_BuildImage_Ok.
  destruct (buildOutcome s opts); eexists _, _; split; reflexivity.
Qed.

(** After the build step [buildImage] looks the image up and writes its
    record; none of this asks the engine to build. *)
Lemma buildImage_finish ctx t (e : error) s :
  exists e' s' evs,
    match e with
    | Some e0 => ret (Some e0)
    | None =>
        '(image, e1) <- GetImage GetImageName ctx (config t) ;;
        match e1 with
        | Some e1' => ret (Some e1')
        | None =>
            updateImageRecord (recordPath ctx (config t))
              {| ImageID := docker.ID image; Info := None |}
        end
    end s = Ok e' s'
    /\ trace s' = trace s ++ evs /\ requests evs = []
    /\ (e <> None -> e' = e).
Proof.
  destruct e as [e0|].
  - exists (Some e0), s, []. rewrite app_nil_r. repeat split.
  - rewrite (bind_Ok _ _ _ _ _ (GetImage_Ok _ _ _ _)).
    destruct (lookupFault s) as [le|].
    { eexists _, _, _. split; [reflexivity|]. cbn. repeat split. congruence. }
    destruct (images s !! GetImageName ctx (config t)) as [img|].
    + cbn beta iota. rewrite updateImageRecord_Ok. cbn [writeFaults with_trace].
      destruct (writeFaults s) as [|[we|] later];
        (eexists _, _, _; split; [reflexivity|]; cbn;
         rewrite <- app_assoc; repeat split; congruence).
    + eexists _, _, _. split; [reflexivity|]. cbn. repeat split. congruence.
Qed.

(** C10. The build step is chosen by the inline steps alone.  With empty
    steps the engine gets one request, naming the configured Dockerfile
    (empty or not) and the context directory and carrying no input stream.
    With non-empty steps the Dockerfile path plays no part: when the pack
    succeeds the engine gets one request that carries the packed archive and
    names no Dockerfile and no context directory, and when it fails no
    request is made and the pack's error is returned.  Nothing checks that
    exactly one of the two is set. *)
Theorem buildImage_dispatch ctx t s :
  (Steps (config t) = "" ->
   exists e s' evs opts,
     buildImage GetImageName recordPath ctx t s = Ok e s'
     /\ trace s' = trace s ++ evs
     /\ requests evs = [opts]
     /\ opt_Dockerfile opts = Dockerfile (config t)
     /\ opt_ContextDir opts = Context (config t)
     /\ opt_InputStream opts = None)
  /\ (Steps (config t) <> "" ->
      forall buf e1 s1,
        writeTarball t s = Ok (buf, e1) s1 ->
        exists e s' evs,
          buildImage GetImageName recordPath ctx t s = Ok e s'
          /\ trace s' = trace s ++ evs
          /\ (exists ms, tar.unpack buf = dockerfileMember t (timeline s (reads s)) :: ms)
          /\ match e1 with
             | Some e1' => e = Some e1' /\ requests evs = []
             | None =>
                 exists opts,
                   requests evs = [opts]
                   /\ opt_InputStream opts = Some buf
                   /\ opt_Dockerfile opts = ""
                   /\ opt_ContextDir opts = ""
             end).
Proof.
  split.
  - intros Hsteps. unfold buildImage. rewrite Hsteps. cbn [String.eqb negb].
    unfold buildImageFromDockerfile, Stream. cbn zeta.
    set (opts := set_ContextDir _ _).
    destruct (Client_BuildImage_total opts s) as (e0 & s0 & Hb & Htr0).
    rewrite (bind_Ok _ _ _ _ _ Hb).
    destruct (buildImage_finish ctx t e0 s0) as (e' & s' & evs & Hrun & Htr & Hreq & _).
    exists e', s', (EvBuildImage opts :: evs), opts.
    split; [exact Hrun|].
    split; [rewrite Htr, Htr0; now rewrite <- app_assoc|].
    split; [cbn; now rewrite Hreq|]. repeat split.
  - intros Hsteps buf e1 s1 Hpack.
    apply String.eqb_neq in Hsteps.
    unfold buildImage. rewrite Hsteps. cbn [negb].
    destruct (writeTarball_inv _ _ _ _ _ Hpack) as [Hq Hms].
    destruct (quiet_trace _ _ Hq) as (evs1 & Htr1 & Hreq1).
    unfold buildImageFromSteps. unfold bind at 1.
    rewrite (bind_Ok _ _ _ _ _ Hpack). cbn beta iota.
    destruct e1 as [e1'|].
    + cbn. exists (Some e1'), s1, evs1. repeat split; assumption.
    + unfold Stream. cbn zeta. set (opts := set_InputStream _ _).
      destruct (Client_BuildImage_total opts s1) as (e0 & s0 & Hb & Htr0).
      rewrite Hb.
      destruct (buildImage_finish ctx t e0 s0) as (e' & s' & evs & Hrun & Htr & Hreq & _).
      exists e', s', (evs1 ++ EvBuildImage opts :: evs).
      split; [exact Hrun|].
      split; [rewrite Htr, Htr0, Htr1; now rewrite <- !app_assoc|].
      split; [exact Hms|].
      exists opts. rewrite requests_app, Hreq1. cbn. rewrite Hreq. repeat split.
Qed.

(** *** A build that succeeds leaves an image and its record *)

(** The state a successful build is known to leave: the image exists
    under the task's name and the record at the task's path names it, with
    a timestamp read from the clock no earlier than reading [n]. *)
Lemma buildStep_built ctx t s s1 :
  (if negb (String.eqb (Steps (config t)) "")
   then buildImageFromSteps GetImageName t ctx
   else buildImageFromDockerfile GetImageName t ctx) s = Ok None s1 ->
  evolves s s1
  /\ exists img, images s1 !! GetImageName ctx (config t) = Some img.
Proof.
  destruct (negb (String.eqb (Steps (config t)) "")).
  - unfold buildImageFromSteps, bind.
    destruct (writeTarball t s) as [[buf e] s0|] eqn:Hpack; [|discriminate].
    apply writeTarball_inv in Hpack as [Hq _]. apply quiet_evolves in Hq.
    destruct e as [e|]; [discriminate|].
    unfold Stream. cbn zeta. rewrite Client_BuildImage_Ok.
    destruct (buildOutcome s0 _) as [be|img]; [discriminate|].
    intros [= <-]. split.
    + eapply evolves_trans; [exact Hq|]. constructor; cbn; auto.
    + exists img. cbn. apply lookup_insert_eq.
  - unfold buildImageFromDockerfile, Stream. cbn zeta. rewrite Client_BuildImage_Ok.
    destruct (buildOutcome s _) as [be|img]; [discriminate|].
    intros [= <-]. split.
    + constructor; cbn; auto.
    + exists img. cbn. apply lookup_insert_eq.
Qed.

Lemma buildImage_built ctx t s s1 :
  buildImage GetImageName recordPath ctx t s = Ok None s1 ->
  evolves s s1
  /\ lookupFault s = None
  /\ exists img k,
       images s1 !! GetImageName ctx (config t) = Some img
       /\ recordFiles s1 !! recordPath ctx (config t)
          = Some {| stored := inr (docker.ID img); mtime := timeline s k |}
       /\ (reads s <= k)%nat.
Proof.
  unfold buildImage. intros H.
  apply bind_Ok_inv in H as (e & s0 & Hstep & H).
  destruct e as [e|]; [discriminate|].
  apply buildStep_built in Hstep as [Hev (img & Himg)].
  rewrite (bind_Ok _ _ _ _ _ (GetImage_Ok _ _ _ _)) in H.
  rewrite (ev_lookupFault _ _ Hev), Himg in H.
  destruct (lookupFault s) as [le|]; [discriminate|].
  cbn beta iota in H. rewrite updateImageRecord_Ok in H.
  cbn [writeFaults with_trace] in H.
  assert (Hrec : s1 = with_records
            (<[recordPath ctx (config t) :=
                 {| stored := inr (docker.ID img); mtime := timeline s0 (reads s0) |}]>
               (recordFiles s0))
            (with_writeFaults (tail (writeFaults s0))
               (with_reads (S (reads s0))
                  (with_trace (trace s0 ++ [EvInspectImage (GetImageName ctx (config t));
                                            EvWriteRecord (recordPath ctx (config t))
                                              (docker.ID img)]) s0)))).
  { destruct (writeFaults s0) as [|[we|] later]; try discriminate;
      injection H as <-; cbn; now rewrite <- app_assoc. }
  subst s1. split; [|split; [reflexivity|]].
  - eapply evolves_trans; [exact Hev|]. constructor; cbn; auto.
  - exists img, (reads s0). cbn. split; [exact Himg|]. split.
    + rewrite lookup_insert_eq. now rewrite (ev_timeline _ _ Hev).
    + apply (ev_reads _ _ Hev).
Qed.

(** The staleness check changes nothing but the trace. *)
Lemma buildIsStale_world ctx t s r s' :
  buildIsStale GetImageName recordPath ctx t s = Ok r s' ->
  exists tr, s' = with_trace tr s.
Proof.
  unfold buildIsStale.
  rewrite (bind_Ok _ _ _ _ _ (GetImage_Ok _ _ _ _)).
  destruct (lookupFault s) as [le|].
  { cbn beta iota. destruct le; unfold logger_Debug, bind, emit, modify, ret;
      intros [= <- <-]; eexists; reflexivity. }
  destruct (images s !! GetImageName ctx (config t)) as [img|]; cbn beta iota.
  2:{ unfold logger_Debug, bind, emit, modify, ret. intros [= <- <-]. eexists; reflexivity. }
  rewrite (bind_Ok _ _ _ _ _ (LastModified_Ok _ _)). cbn [lastModifiedOf with_trace].
  destruct (lastModifiedOf s (Context (config t))) as [me|tm]; cbn beta iota.
  { unfold logger_Warn, bind, emit, modify, ret. intros [= <- <-]. eexists; reflexivity. }
  rewrite (bind_Ok _ _ _ _ _ (getImageRecord_Ok _ _)). cbn [recordFiles with_trace].
  destruct (recordFiles s !! recordPath ctx (config t)) as [f|]; cbn beta iota.
  2:{ unfold logger_Warnf, logger_Debug, bind, emit, modify, ret.
      destruct (Before _ _); intros [= <- <-]; eexists; reflexivity. }
  destruct (stored f) as [se|id]; cbn beta iota.
  { unfold logger_Warnf, logger_Debug, bind, emit, modify, ret.
    destruct (Before _ _); intros [= <- <-]; eexists; reflexivity. }
  cbn [ImageID Info].
  unfold logger_Debug, bind, emit, modify, ret.
  destruct (negb _); [intros [= <- <-]; eexists; reflexivity|].
  destruct (Before _ _); intros [= <- <-]; eexists; reflexivity.
Qed.

Lemma RunBuild_built ctx t hasModifiedDeps s s1 :
  RunBuild GetImageName recordPath ctx t hasModifiedDeps s = Ok (true, None) s1 ->
  evolves s s1
  /\ lookupFault s = None
  /\ exists img k,
       images s1 !! GetImageName ctx (config t) = Some img
       /\ recordFiles s1 !! recordPath ctx (config t)
          = Some {| stored := inr (docker.ID img); mtime := timeline s k |}
       /\ (reads s <= k)%nat.
Proof.
  unfold RunBuild. cbn zeta.
  set (build := bind (logger_Debug t "is stale") _).
  assert (Hbuild : forall s0, evolves s s0 -> build s0 = Ok (true, None) s1 ->
            evolves s s1 /\ lookupFault s = None
            /\ exists img k,
                 images s1 !! GetImageName ctx (config t) = Some img
                 /\ recordFiles s1 !! recordPath ctx (config t)
                    = Some {| stored := inr (docker.ID img); mtime := timeline s k |}
                 /\ (reads s <= k)%nat).
  { intros s0 Hev0 H. unfold build in H.
    unfold logger_Debug in H. rewrite (bind_Ok _ _ _ _ _ (emit_Ok _ _)) in H.
    apply bind_Ok_inv in H as (e & s2 & Hbi & H).
    destruct e as [e|]; [discriminate|].
    apply buildImage_built in Hbi as (Hev2 & Hlf & img & k & Himg & Hrec & Hk).
    cbn [reads timeline lookupFault with_trace] in Hlf, Hrec, Hk.
    assert (Hev02 : evolves s0 s2).
    { eapply evolves_trans; [apply evolves_with_trace|exact Hev2]. }
    clear Hev2.
    pose proof (evolves_trans _ _ _ Hev0 Hev02) as Hev.
    rewrite (bind_Ok _ _ _ _ _ (GetImage_Ok _ _ _ _)) in H.
    rewrite (ev_lookupFault _ _ Hev02), Hlf, Himg in H. cbn beta iota in H.
    rewrite <- (ev_lookupFault _ _ Hev0), Hlf.
    rewrite <- (ev_timeline _ _ Hev0).
    unfold bind at 1 2 in H. rewrite updateImageRecord_Ok in H.
    cbn [writeFaults with_trace] in H.
    unfold logger_Warnf, logger_Info, bind, emit, modify, ret in H.
    destruct (writeFaults s2) as [|[we|] later]; injection H as <-.
    - split; [|split; [reflexivity|]].
      + eapply evolves_trans; [exact Hev|]. constructor; cbn; auto.
      + exists img, (reads s2). cbn. split; [exact Himg|]. split.
        * rewrite lookup_insert_eq. now rewrite (ev_timeline _ _ Hev02).
        * pose proof (ev_reads _ _ Hev0). pose proof (ev_reads _ _ Hev02). lia.
    - split; [|split; [reflexivity|]].
      + eapply evolves_trans; [exact Hev|]. constructor; cbn; auto.
      + exists img, k. cbn. split; [exact Himg|]. split; [exact Hrec|].
        pose proof (ev_reads _ _ Hev0). lia.
    - split; [|split; [reflexivity|]].
      + eapply evolves_trans; [exact Hev|]. constructor; cbn; auto.
      + exists img, (reads s2). cbn. split; [exact Himg|]. split.
        * rewrite lookup_insert_eq. now rewrite (ev_timeline _ _ Hev02).
        * pose proof (ev_reads _ _ Hev0). pose proof (ev_reads _ _ Hev02). lia. }
  destruct hasModifiedDeps; cbn [negb].
  - apply Hbuild, evolves_refl.
  - intros H. apply bind_Ok_inv in H as ([stale e] & s0 & Hst & H).
    apply buildIsStale_world in Hst as [tr ->].
    destruct e as [e|]; [discriminate|].
    destruct stale; cbn [negb] in H.
    + revert H. apply Hbuild, evolves_with_trace.
    + discriminate.
Qed.

End Building.


(** ** Building twice, and a record that cannot be written *)

Section Rebuild.

Variable GetImageName : ExecuteContext -> ImageConfig -> string.
Variable recordPath : ExecuteContext -> ImageConfig -> string.

(** C5, amended.  Start with no image.  If the first run builds the image
    and returns success (so the record was written), if the context's
    latest modification time can be computed, and if that time is not later
    than the modification time of the record file the run left, then the
    staleness check is stale=true before the first run and stale=false
    after it, and a second run does not build. *)
Theorem rebuild_is_fresh ctx t s s1 tm :
  images s !! GetImageName ctx (config t) = None ->
  RunBuild GetImageName recordPath ctx t false s = Ok (true, None) s1 ->
  lastModifiedOf s1 (Context (config t)) = inr tm ->
  (forall f, recordFiles s1 !! recordPath ctx (config t) = Some f -> tm <= mtime f) ->
  returned (buildIsStale GetImageName recordPath ctx t s) = Some (true, None)
  /\ returned (buildIsStale GetImageName recordPath ctx t s1) = Some (false, None)
  /\ returned (RunBuild GetImageName recordPath ctx t false s1) = Some (false, None).
Proof.
  intros Hnone Hrun Hmod Hpast.
  destruct (RunBuild_built _ _ _ _ _ _ _ Hrun)
    as (Hev & Hlf & img & k & Himg & Hrec & Hk).
  assert (Hfirst : returned (buildIsStale GetImageName recordPath ctx t s)
                   = Some (true, None)).
  { unfold buildIsStale. rewrite (bind_Ok _ _ _ _ _ (GetImage_Ok _ _ _ _)).
    now rewrite Hlf, Hnone. }
  assert (Hsecond : exists s2, buildIsStale GetImageName recordPath ctx t s1
                               = Ok (false, None) s2).
  { unfold buildIsStale. rewrite (bind_Ok _ _ _ _ _ (GetImage_Ok _ _ _ _)).
    rewrite (ev_lookupFault _ _ Hev), Hlf, Himg. cbn beta iota.
    rewrite (bind_Ok _ _ _ _ _ (LastModified_Ok _ _)). cbn [lastModifiedOf with_trace].
    rewrite Hmod. cbn beta iota.
    rewrite (bind_Ok _ _ _ _ _ (getImageRecord_Ok _ _)). cbn [recordFiles with_trace].
    specialize (Hpast _ Hrec). cbn [mtime] in Hpast.
    rewrite Hrec. cbn [stored mtime ImageID Info ModTime].
    rewrite String.eqb_refl. cbn [negb]. unfold Before.
    apply Z.ltb_ge in Hpast. rewrite Hpast.
    eexists. reflexivity. }
  destruct Hsecond as [s2 Hsecond].
  split; [exact Hfirst|]. split; [now rewrite Hsecond|].
  unfold RunBuild. cbn [negb]. now rewrite (bind_Ok _ _ _ _ _ Hsecond).
Qed.

(** The record a successful run leaves is stamped with a reading of the
    clock taken during the run, so a context that is not dated ahead of
    the clock is not newer than it. *)
Lemma record_time_after_build ctx t hasModifiedDeps s s1 tm :
  RunBuild GetImageName recordPath ctx t hasModifiedDeps s = Ok (true, None) s1 ->
  (forall n, (reads s <= n)%nat -> tm <= timeline s n) ->
  forall f, recordFiles s1 !! recordPath ctx (config t) = Some f -> tm <= mtime f.
Proof.
  intros Hrun Hpast f Hf.
  destruct (RunBuild_built _ _ _ _ _ _ _ Hrun) as (_ & _ & img & k & _ & Hrec & Hk).
  rewrite Hrec in Hf. injection Hf as <-. cbn. auto.
Qed.

End Rebuild.

(** C5 as stated fails in two ways.  When a context file is dated ahead of
    the clock: with no image and no record, the first run builds, writes the
    record and succeeds, nothing on disk changes, yet the check after it is
    stale again, because the record is older than the context.  And when the
    context cannot be scanned for its modification time: the first run never
    looks (there is no image) and succeeds, and the check after it returns
    stale=true with the scan's error. *)
Lemma rebuild_stale_again :
  (images Scenario.futureDated !! "app" = None
   /\ recordFiles Scenario.futureDated !! "/work/.dobi/images/app" = None
   /\ returned (buildIsStale Scenario.nameOf Scenario.pathOf Scenario.ctx0
                  Scenario.fromDockerfile Scenario.futureDated) = Some (true, None)
   /\ match RunBuild Scenario.nameOf Scenario.pathOf Scenario.ctx0
              Scenario.fromDockerfile false Scenario.futureDated with
      | Ok r s1 =>
          r = (true, None)
          /\ existsb is_warning (trace s1) = false
          /\ recordFiles s1 !! "/work/.dobi/images/app"
             = Some {| stored := inr "sha1"; mtime := 101 |}
          /\ lastModifiedOf s1 "app" = inr 1000
          /\ returned (buildIsStale Scenario.nameOf Scenario.pathOf Scenario.ctx0
                         Scenario.fromDockerfile s1) = Some (true, None)
      | Panic _ => False
      end)
  /\ (images Scenario.contextUnscannable !! "app" = None
      /\ recordFiles Scenario.contextUnscannable !! "/work/.dobi/images/app" = None
      /\ match RunBuild Scenario.nameOf Scenario.pathOf Scenario.ctx0
                 Scenario.fromSteps false Scenario.contextUnscannable with
         | Ok r s1 =>
             r = (true, None)
             /\ existsb is_warning (trace s1) = false
             /\ recordFiles s1 !! "/work/.dobi/images/app"
                = Some {| stored := inr "sha1"; mtime := 104 |}
             /\ returned (buildIsStale Scenario.nameOf Scenario.pathOf Scenario.ctx0
                            Scenario.fromSteps s1)
                = Some (true, Some (ErrOther "permission denied"))
         | Panic _ => False
         end).
Proof. vm_compute. repeat split; reflexivity. Qed.

(** C1. A record write that fails right after a successful image build
    fails the whole run: the image [sha1] is built and registered, the write
    in [buildImage] fails, and [RunBuild] returns that error without logging
    any warning. *)
Theorem RunBuild_fails_on_record_write :
  match RunBuild Scenario.nameOf Scenario.pathOf Scenario.ctx0
          Scenario.fromDockerfile false Scenario.recordUnwritable with
  | Ok r s1 =>
      r = (false, Some (ErrOther "permission denied"))
      /\ images s1 !! "app" = Some {| docker.ID := "sha1"; docker.Created := 50 |}
      /\ existsb is_warning (trace s1) = false
  | Panic _ => False
  end.
Proof. vm_compute. repeat split; reflexivity. Qed.

(** The sibling write in [RunBuild] itself is the one that only warns: when
    the first write succeeds and the second fails, the run succeeds. *)
Lemma RunBuild_warns_on_second_record_write :
  match RunBuild Scenario.nameOf Scenario.pathOf Scenario.ctx0
          Scenario.fromDockerfile false
          (with_writeFaults [None; Some (ErrOther "permission denied")] Scenario.fresh) with
  | Ok r s1 =>
      r = (true, None)
      /\ EvLogErr WarnLevel "Failed to update image record: %s"
           (ErrOther "permission denied") ∈ trace s1
  | Panic _ => False
  end.
Proof. vm_compute. split; [reflexivity|]. repeat constructor. Qed.


(** ** The theorems at concrete tasks and worlds *)

(** No image: stale at once.  Engine down: stale, with the engine's error. *)
Lemma buildIsStale_lookup_error_witness :
  (returned (buildIsStale Scenario.nameOf Scenario.pathOf Scenario.ctx0
               Scenario.fromDockerfile Scenario.fresh) = Some (true, None)
   /\ final (buildIsStale Scenario.nameOf Scenario.pathOf Scenario.ctx0
               Scenario.fromDockerfile Scenario.fresh)
      = Some (with_trace [EvInspectImage "app"; EvLog DebugLevel "Image does not exist"]
                Scenario.fresh))
  /\ returned (buildIsStale Scenario.nameOf Scenario.pathOf Scenario.ctx0
                 Scenario.fromDockerfile Scenario.engineDown)
     = Some (true, Some (ErrOther "cannot connect to the Docker daemon")).
Proof.
  split.
  - edestruct (buildIsStale_lookup_error Scenario.nameOf Scenario.pathOf Scenario.ctx0
                 Scenario.fromDockerfile Scenario.fresh) as (evs & Hrun & _ & Hevs);
      [reflexivity|].
    rewrite Hrun, Hevs. split; reflexivity.
  - edestruct (buildIsStale_lookup_error Scenario.nameOf Scenario.pathOf Scenario.ctx0
                 Scenario.fromDockerfile Scenario.engineDown) as (evs & Hrun & _ & Hevs);
      [reflexivity|].
    rewrite Hrun. reflexivity.
Defined.

(** A record for another image is stale although it is newer than the
    context; a record for this image written at the instant of the last
    change is fresh. *)
Lemma buildIsStale_record_readable_witness :
  returned (buildIsStale Scenario.nameOf Scenario.pathOf Scenario.ctx0
              Scenario.fromDockerfile Scenario.recordOfOld) = Some (true, None)
  /\ returned (buildIsStale Scenario.nameOf Scenario.pathOf Scenario.ctx0
                 Scenario.fromDockerfile Scenario.recordTied) = Some (false, None).
Proof.
  split.
  - edestruct (buildIsStale_record_readable Scenario.nameOf Scenario.pathOf Scenario.ctx0
                 Scenario.fromDockerfile Scenario.recordOfOld)
      as (info & stale & _ & Hrun & _ & Hne & _); [reflexivity..|].
    rewrite Hrun, Hne; [reflexivity|discriminate].
  - edestruct (buildIsStale_record_readable Scenario.nameOf Scenario.pathOf Scenario.ctx0
                 Scenario.fromDockerfile Scenario.recordTied)
      as (info & stale & Hinfo & Hrun & _ & _ & Htie); [reflexivity..|].
    injection Hinfo as <-.
    rewrite Hrun, Htie; reflexivity.
Defined.

(** A record that cannot be decoded, an image created at 50 and a context
    last modified at 5: fresh, with a nil error. *)
Lemma buildIsStale_record_unreadable_witness :
  returned (buildIsStale Scenario.nameOf Scenario.pathOf Scenario.ctx0
              Scenario.fromDockerfile Scenario.recordCorrupt) = Some (false, None)
  /\ returned (buildIsStale Scenario.nameOf Scenario.pathOf Scenario.ctx0
                 Scenario.fromDockerfile Scenario.built) = Some (false, None).
Proof.
  split.
  - edestruct (buildIsStale_record_unreadable Scenario.nameOf Scenario.pathOf Scenario.ctx0
                 Scenario.fromDockerfile Scenario.recordCorrupt)
      as (s' & _ & _ & Hfresh); [reflexivity..|].
    apply Hfresh. reflexivity.
  - edestruct (buildIsStale_record_unreadable Scenario.nameOf Scenario.pathOf Scenario.ctx0
                 Scenario.fromDockerfile Scenario.built)
      as (s' & _ & _ & Hfresh); [reflexivity..|].
    apply Hfresh. reflexivity.
Defined.

(** From nothing, with the context last modified before the clock's first
    reading: stale, then fresh. *)
Lemma rebuild_is_fresh_witness :
  returned (buildIsStale Scenario.nameOf Scenario.pathOf Scenario.ctx0
              Scenario.fromSteps Scenario.fresh) = Some (true, None)
  /\ exists s1,
      RunBuild Scenario.nameOf Scenario.pathOf Scenario.ctx0 Scenario.fromSteps false
        Scenario.fresh = Ok (true, None) s1
      /\ returned (buildIsStale Scenario.nameOf Scenario.pathOf Scenario.ctx0
                     Scenario.fromSteps s1) = Some (false, None)
      /\ returned (RunBuild Scenario.nameOf Scenario.pathOf Scenario.ctx0
                     Scenario.fromSteps false s1) = Some (false, None).
Proof.
  eassert (Hrun : RunBuild Scenario.nameOf Scenario.pathOf Scenario.ctx0
                    Scenario.fromSteps false Scenario.fresh = Ok (true, None) _)
    by (vm_compute; reflexivity).
  destruct (rebuild_is_fresh Scenario.nameOf Scenario.pathOf Scenario.ctx0
              Scenario.fromSteps Scenario.fresh _ 5 eq_refl Hrun eq_refl)
    as (Hfirst & Hsecond & Hagain).
  - intros f Hf. vm_compute in Hf. injection Hf as <-. cbn. lia.
  - split; [exact Hfirst|]. eexists. split; [exact Hrun|].
    split; [exact Hsecond|exact Hagain].
Defined.

(** The context [lib] with [lib] ignored: the archive holds the Dockerfile
    alone. *)
Lemma writeTarball_roundtrip_witness :
  exists buf s' m,
    writeTarball Scenario.libTask Scenario.ignoringLib = Ok (buf, None) s'
    /\ tar.unpack buf = [m]
    /\ tar.Name (tar.header m) = "Dockerfile"
    /\ string_of_list_byte (tar.body m) = "FROM x"
    /\ tar.Size (tar.header m) = 6
    /\ tar.ModTime (tar.header m) = 100
    /\ tar.AccessTime (tar.header m) = 100
    /\ tar.ChangeTime (tar.header m) = 100.
Proof.
  edestruct (writeTarball_roundtrip Scenario.libTask Scenario.ignoringLib)
    as (buf & s' & m & now & Hrun & Hun & Hnow & Hname & Hbody & Hsize & Hm & Ha & Hc);
    [vm_compute; reflexivity|].
  injection Hnow as <-.
  exists buf, s', m. repeat split; assumption.
Defined.

(** The context [app]: two files are packed after the Dockerfile; when
    [run.sh] cannot be read the pack, and the build, stop with that error. *)
Lemma writeTarball_files_witness :
  (exists buf s',
     writeTarball Scenario.fromSteps Scenario.fresh = Ok (buf, None) s'
     /\ length (tar.unpack buf) = 3%nat
     /\ tar.unpack buf !! 2%nat
        = Some {| tar.header := {| tar.Name := "run.sh"; tar.Size := 0; tar.Mode := 420;
                                   tar.ModTime := 102; tar.AccessTime := 102;
                                   tar.ChangeTime := 102 |};
                  tar.body := [] |})
  /\ returned (buildImageFromSteps Scenario.nameOf Scenario.fromSteps Scenario.ctx0
                 Scenario.unreadableFile) = Some (Some (ErrOther "permission denied")).
Proof.
  split.
  - edestruct (writeTarball_files Scenario.fromSteps Scenario.fresh)
      as (buf & s' & Hrun & Hok & _); [vm_compute; reflexivity|].
    destruct (Hok eq_refl) as [Hlen Hnth].
    destruct (Hnth 1%nat "app/run.sh" eq_refl) as (fi & byt & now & Hst & Hrd & -> & Hm).
    injection Hst as <-. injection Hrd as <-.
    exists buf, s'. split; [exact Hrun|]. split; [exact Hlen|exact Hm].
  - edestruct (writeTarball_files Scenario.fromSteps Scenario.unreadableFile)
      as (buf & s' & _ & _ & _ & Habort); [vm_compute; reflexivity|].
    rewrite (Habort (ErrOther "permission denied") eq_refl). reflexivity.
Defined.

(** A task with both a Dockerfile and steps is built from the steps; one
    with empty steps from its Dockerfile. *)
Lemma buildImage_dispatch_witness :
  (exists e s' evs opts,
     buildImage Scenario.nameOf Scenario.pathOf Scenario.ctx0 Scenario.fromDockerfile
       Scenario.fresh = Ok e s'
     /\ trace s' = trace Scenario.fresh ++ evs
     /\ requests evs = [opts]
     /\ opt_Dockerfile opts = "Dockerfile"
     /\ opt_ContextDir opts = "app"
     /\ opt_InputStream opts = None)
  /\ (exists e s' evs opts buf,
        buildImage Scenario.nameOf Scenario.pathOf Scenario.ctx0 Scenario.fromSteps
          Scenario.fresh = Ok e s'
        /\ trace s' = trace Scenario.fresh ++ evs
        /\ requests evs = [opts]
        /\ opt_InputStream opts = Some buf
        /\ opt_Dockerfile opts = ""
        /\ Dockerfile (config Scenario.fromSteps) = "Dockerfile").
Proof.
  split.
  - exact (proj1 (buildImage_dispatch Scenario.nameOf Scenario.pathOf Scenario.ctx0
                    Scenario.fromDockerfile Scenario.fresh) eq_refl).
  - assert (Hsteps : Steps (config Scenario.fromSteps) <> "") by discriminate.
    eassert (Hpack : writeTarball Scenario.fromSteps Scenario.fresh = Ok (_, None) _)
      by (vm_compute; reflexivity).
    destruct (proj2 (buildImage_dispatch Scenario.nameOf Scenario.pathOf Scenario.ctx0
                       Scenario.fromSteps Scenario.fresh) Hsteps _ _ _ Hpack)
      as (e & s' & evs & Hrun & Htr & _ & opts & Hreq & Hin & Hdf & _).
    exists e, s', evs, opts. eexists. repeat split; eassumption.
Defined.


(** * Further properties *)

(** ** Scanning *)

Section ScanProperties.

Lemma walk_scan_listing n : forall path placeholder,
  filepath.walk scanCallback path n placeholder
  = match listing path n with
    | Some l => Ok None (placeholder ++ l)
    | None => Panic "invalid memory address or nil pointer dereference"
    end.
Proof.
  induction n as [le|info readErr names IH] using filepath.FsEntry_forall_ind;
    intros path placeholder.
  - reflexivity.
  - cbn [filepath.walk listing]. unfold bind at 1. cbn.
    destruct (IsDir info) eqn:Hdir; cbn; [|reflexivity].
    destruct readErr as [re|]; [cbn; rewrite Hdir; cbn; now rewrite app_nil_r|].
    revert placeholder.
    induction IH as [|[name child] rest Hchild _ IHrest]; intros placeholder.
    + now rewrite app_nil_r.
    + destruct child as [le|cinfo crd cnames]; [reflexivity|].
      cbn [snd] in Hchild. unfold bind at 1. rewrite Hchild.
      destruct (listing (filepath.Join path name) (filepath.Entry cinfo crd cnames))
        as [here|]; [|reflexivity].
      rewrite IHrest.
      match goal with
      | |- context [match ?b with Some _ => _ | None => _ end] =>
          destruct b as [there|]
      end; [now rewrite app_assoc|reflexivity].
Qed.

Lemma listing_walkable n : forall path,
  walkable n = true -> listing path n = Some (nonDirectories path n).
Proof.
  induction n as [le|info readErr names IH] using filepath.FsEntry_forall_ind;
    intros path Hw; [discriminate|].
  cbn [listing walkable nonDirectories] in *.
  destruct (IsDir info); cbn in Hw; [|reflexivity].
  apply andb_true_iff in Hw as [Hrd Hall].
  apply bool_decide_eq_true in Hrd as ->.
  induction IH as [|[name child] rest Hchild _ IHrest]; [reflexivity|].
  apply andb_true_iff in Hall as [Hc Hrest].
  rewrite (Hchild _ Hc), (IHrest Hrest). reflexivity.
Qed.



(** X3. Whenever the scan returns, its error is nil, the world is as it
    was, and the result extends the slice it was given: nothing collected
    earlier is lost or reordered. *)
Theorem scanRoot2Slice_returns_extension root placeholder s paths e s' :
  scanRoot2Slice root placeholder s = Ok (paths, e) s' ->
  e = None /\ s' = s /\ exists more, paths = placeholder ++ more.
Proof.
  rewrite scanRoot2Slice_Ok. unfold filepath.Walk, bind.
  rewrite walk_scan_listing.
  destruct (listing root (lstat s root)) as [l|]; [|discriminate].
  cbn. intros [= <- <- <-]. eauto.
Qed.


(** X4. The resolution of the ignore patterns reports an error exactly
    when the pattern sources cannot be read: it then returns that error with
    an empty list, without walking anything; no walk ever makes it return
    an error. *)
Theorem scanIgnored_error_iff t s e :
  (ignoreSources s = inl e -> scanIgnored t s = Ok ([], Some e) s)
  /\ (forall paths s', scanIgnored t s = Ok (paths, Some e) s' ->
      ignoreSources s = inl e /\ paths = [] /\ s' = s).
Proof.
  split.
  - intros H. unfold scanIgnored, dockerignore.ReadAll, bind, get, ret. now rewrite H.
  - intros paths s' H. pose proof (scanIgnored_error _ _ _ _ _ H) as Hsrc.
    split; [exact Hsrc|]. revert H.
    unfold scanIgnored, dockerignore.ReadAll, bind, get, ret. rewrite Hsrc.
    intros [= <- <-]. auto.
Qed.




End ScanProperties.


(** ** Packing *)

Section PackProperties.











(** *** Archives *)

Lemma packed_stops t s pre file post e : forall k,
  firstError s pre = None -> fileError s file = Some e ->
  packed t s (pre ++ file :: post) k = packed t s pre k
  /\ firstError s (pre ++ file :: post) = Some e.
Proof.
  induction pre as [|f pre IH]; intros k Hpre Hfile.
  - cbn. unfold fileError in Hfile |- *.
    destruct (statOf s file); [now rewrite Hfile|].
    destruct (contentOf s file); [now rewrite Hfile|discriminate].
  - cbn in Hpre |- *. unfold fileError in Hpre |- *.
    destruct (statOf s f); [discriminate|].
    destruct (contentOf s f); [discriminate|].
    destruct (IH (S k) Hpre Hfile) as [-> ->]. auto.
Qed.

Lemma packed_stamp t s paths : forall k i m,
  packed t s paths k !! i = Some m ->
  exists file,
    paths !! i = Some file
    /\ tar.Name (tar.header m) = entryName t file
    /\ tar.ModTime (tar.header m) = timeline s (k + i)
    /\ tar.AccessTime (tar.header m) = timeline s (k + i)
    /\ tar.ChangeTime (tar.header m) = timeline s (k + i).
Proof.
  induction paths as [|f paths IH]; intros k i m; cbn [packed]; [discriminate|].
  destruct (statOf s f) as [|fi]; [discriminate|].
  destruct (contentOf s f) as [|byt]; [discriminate|].
  destruct i as [|i].
  - intros [= <-]. exists f. rewrite Nat.add_0_r. repeat split.
  - intros H. change ((_ :: packed t s paths (S k)) !! S i)
      with (packed t s paths (S k) !! i) in H.
    destruct (IH _ _ _ H) as (file & Hf & Hn & Hm & Ha & Hc).
    exists file. rewrite <- Nat.add_succ_comm. repeat split; assumption.
Qed.

Lemma closed_buffer ms :
  tar.w (tar.Close (writerAfter ms)).2 = concat (chunksOf <$> ms) ++ [tar.Trailer].
Proof. reflexivity. Qed.

(** X8. A pack that stops at a file it cannot stat or read still returns
    its buffer, with that file's error: a closed archive holding the
    [Dockerfile] member and one member for each file before the failing
    one, and nothing for the files after it. *)
Theorem writeTarball_partial_archive t s pre file post e s1 :
  getTarContext t s = Ok (pre ++ file :: post, None) s1 ->
  firstError s pre = None ->
  fileError s file = Some e ->
  exists buf s',
    writeTarball t s = Ok (buf, Some e) s'
    /\ last buf = Some tar.Trailer
    /\ length (tar.unpack buf) = S (length pre)
    /\ tar.unpack buf !! 0%nat = Some (dockerfileMember t (timeline s (reads s)))
    /\ forall i f, pre !! i = Some f ->
         exists m, tar.unpack buf !! S i = Some m
                   /\ tar.Name (tar.header m) = entryName t f.
Proof.
  intros Hctx Hpre Hfile.
  destruct (writeTarball_Ok _ _ _ _ Hctx) as (s' & Hrun & _).
  destruct (packed_stops t s pre file post e (S (reads s)) Hpre Hfile) as [Hp Hfe].
  rewrite Hp, Hfe in Hrun.
  eexists _, s'. split; [exact Hrun|]. split.
  { rewrite closed_buffer. apply last_snoc. }
  rewrite unpack_closed
    by (constructor; [apply dockerfileMember_wellSized|apply packed_wellSized]).
  destruct (packed_lookup t s pre (S (reads s)) Hpre) as [Hlen Hnth].
  split; [cbn; now rewrite Hlen|]. split; [reflexivity|].
  intros i f Hi. destruct (Hnth i f Hi) as (fi & byt & _ & _ & Hm).
  eexists. split; [exact Hm|reflexivity].
Qed.

(** X9. With a wall clock that never runs backwards, the members of a
    packed archive carry non-decreasing timestamps in archive order, the
    [Dockerfile] member the earliest, and in each member the modification,
    access and change times are one and the same. *)
Theorem writeTarball_stamps_in_order t s paths s1 buf e s' :
  getTarContext t s = Ok (paths, None) s1 ->
  monotone (timeline s) ->
  writeTarball t s = Ok (buf, e) s' ->
  forall i j mi mj,
    (i <= j)%nat ->
    tar.unpack buf !! i = Some mi -> tar.unpack buf !! j = Some mj ->
    tar.ModTime (tar.header mi) <= tar.ModTime (tar.header mj)
    /\ tar.AccessTime (tar.header mi) = tar.ModTime (tar.header mi)
    /\ tar.ChangeTime (tar.header mi) = tar.ModTime (tar.header mi).
Proof.
  intros Hctx Hmono Hrun i j mi mj Hij Hi Hj.
  destruct (writeTarball_Ok _ _ _ _ Hctx) as (s2 & Hrun2 & _).
  rewrite Hrun2 in Hrun.
  assert (Hbuf : tar.w (tar.Close
                   (writerAfter (dockerfileMember t (timeline s (reads s))
                                 :: packed t s paths (S (reads s))))).2 = buf)
    by congruence.
  subst buf. clear Hrun.
  rewrite unpack_closed in Hi, Hj
    by (constructor; [apply dockerfileMember_wellSized|apply packed_wellSized]).
  assert (Hstamp : forall k m,
            (dockerfileMember t (timeline s (reads s))
             :: packed t s paths (S (reads s))) !! k = Some m ->
            tar.ModTime (tar.header m) = timeline s (reads s + k)
            /\ tar.AccessTime (tar.header m) = timeline s (reads s + k)
            /\ tar.ChangeTime (tar.header m) = timeline s (reads s + k)).
  { intros [|k] m.
    - intros [= <-]. rewrite Nat.add_0_r. repeat split.
    - intros H. change ((_ :: ?l) !! S k) with (l !! k) in H.
      destruct (packed_stamp _ _ _ _ _ _ H) as (_ & _ & _ & Hm & Ha & Hc).
      rewrite <- Nat.add_succ_comm. auto. }
  destruct (Hstamp _ _ Hi) as (Hmi & Hai & Hci).
  destruct (Hstamp _ _ Hj) as (Hmj & _ & _).
  rewrite Hmi, Hmj, Hai, Hci. repeat split. apply Hmono. lia.
Qed.

(** X10. Packing asks nothing of the engine and writes nothing: whenever
    it returns, with or without an error, the images, the record files and
    the pending write outcomes are as before, and all it logged are debug
    lines. *)
Theorem writeTarball_touches_nothing t s buf e s' :
  writeTarball t s = Ok (buf, e) s' ->
  images s' = images s
  /\ recordFiles s' = recordFiles s
  /\ writeFaults s' = writeFaults s
  /\ exists evs,
      trace s' = trace s ++ evs
      /\ forallb is_chatter evs = true
      /\ requests evs = [] /\ recordWrites evs = [] /\ lookups evs = [].
Proof.
  intros H. apply writeTarball_inv in H as [(k & evs & Hch & ->) _].
  repeat split. exists evs. split; [reflexivity|]. split; [exact Hch|].
  split; [now apply chatter_requests|].
  clear -Hch. induction evs as [|ev evs IH]; [auto|].
  cbn in Hch. apply andb_true_iff in Hch as [Hev Hevs].
  destruct (IH Hevs) as [Hw Hl].
  destruct ev as [| |[] | | | | |]; try discriminate. cbn. auto.
Qed.

End PackProperties.


(** ** Build arguments *)

(** X11. [buildArgs] turns the argument map into one [BuildArg] per entry:
    an argument with name [k] and value [v] is in the result exactly when the
    map binds [k] to [v], the result is as long as the map is large, and no
    name occurs twice. *)
Theorem buildArgs_entries (args : gmap string string) :
  (forall k v, {| docker.ArgName := k; docker.ArgValue := v |} ∈ buildArgs args
               <-> args !! k = Some v)
  /\ length (buildArgs args) = size args
  /\ NoDup (docker.ArgName <$> buildArgs args).
Proof.
  unfold buildArgs. split; [|split].
  - intros k v. rewrite list_elem_of_fmap. split.
    + intros ([k' v'] & Heq & Hin). injection Heq as -> ->.
      now apply elem_of_map_to_list in Hin.
    + intros H. exists (k, v). split; [reflexivity|]. now apply elem_of_map_to_list.
  - rewrite length_fmap. apply length_map_to_list.
  - rewrite <- list_fmap_compose.
    apply (NoDup_fst_map_to_list args).
Qed.

(** ** The staleness check *)

Section StaleProperties.

Variable GetImageName : ExecuteContext -> ImageConfig -> string.
Variable recordPath : ExecuteContext -> ImageConfig -> string.

Lemma with_trace_twice tr1 tr2 s : with_trace tr2 (with_trace tr1 s) = with_trace tr2 s.
Proof. reflexivity. Qed.

(** The check in closed form: it returns the verdict, and all it does to
    the world is append to the trace its one lookup, at most one scan of
    the context and one read of the record, and its log lines. *)
Lemma buildIsStale_verdict ctx t s :
  exists evs,
    buildIsStale GetImageName recordPath ctx t s
    = Ok (verdict (GetImageName ctx (config t)) (recordPath ctx (config t))
            (Context (config t)) s)
         (with_trace (trace s ++ evs) s)
    /\ requests evs = [] /\ recordWrites evs = []
    /\ lookups evs = [GetImageName ctx (config t)].
Proof.
  unfold buildIsStale, verdict.
  rewrite (bind_Ok _ _ _ _ _ (GetImage_Ok _ _ _ _)).
  destruct (lookupFault s) as [le|].
  { destruct le; cbn; eexists; (split; [rewrite ?with_trace_twice; cbn [trace with_trace];
      rewrite <- ?app_assoc; reflexivity|]); cbn; auto. }
  destruct (images s !! GetImageName ctx (config t)) as [img|]; cbn beta iota.
  2:{ cbn; eexists; (split; [rewrite ?with_trace_twice; cbn [trace with_trace];
      rewrite <- ?app_assoc; reflexivity|]); cbn; auto. }
  rewrite (bind_Ok _ _ _ _ _ (LastModified_Ok _ _)). cbn [lastModifiedOf with_trace].
  destruct (lastModifiedOf s (Context (config t))) as [me|tm]; cbn beta iota.
  { cbn; eexists; (split; [rewrite ?with_trace_twice; cbn [trace with_trace];
      rewrite <- ?app_assoc; reflexivity|]); cbn; auto. }
  rewrite (bind_Ok _ _ _ _ _ (getImageRecord_Ok _ _)). cbn [recordFiles with_trace].
  destruct (recordFiles s !! recordPath ctx (config t)) as [f|]; cbn beta iota.
  2:{ unfold Before. cbn. destruct (docker.Created img <? tm); cbn;
      eexists; (split; [rewrite ?with_trace_twice; cbn [trace with_trace];
      rewrite <- ?app_assoc; reflexivity|]); cbn; auto. }
  destruct (stored f) as [se|id]; cbn beta iota zeta.
  { unfold Before. cbn. destruct (docker.Created img <? tm); cbn;
      eexists; (split; [rewrite ?with_trace_twice; cbn [trace with_trace];
      rewrite <- ?app_assoc; reflexivity|]); cbn; auto. }
  cbn [ImageID Info ModTime]. unfold Before.
  destruct (String.eqb (docker.ID img) id); cbn [negb orb].
  2:{ cbn; eexists; (split; [rewrite ?with_trace_twice; cbn [trace with_trace];
      rewrite <- ?app_assoc; reflexivity|]); cbn; auto. }
  destruct (mtime f <? tm); cbn;
    eexists; (split; [rewrite ?with_trace_twice; cbn [trace with_trace];
    rewrite <- ?app_assoc; reflexivity|]); cbn; auto.
Qed.

(** X12. The staleness check always returns, and it only looks: it asks
    the engine for the image once, requests no build, writes no record, and
    leaves the world as it was but for the trace. *)
Theorem buildIsStale_only_looks ctx t s :
  exists r evs,
    buildIsStale GetImageName recordPath ctx t s
    = Ok r (with_trace (trace s ++ evs) s)
    /\ requests evs = [] /\ recordWrites evs = []
    /\ lookups evs = [GetImageName ctx (config t)].
Proof.
  destruct (buildIsStale_verdict ctx t s) as (evs & H & Hrest). eauto.
Qed.

(** X13. An error from the staleness check always comes with stale=true,
    and it is either the engine's lookup error or, the image being there,
    the error of scanning the context for its modification time; nothing
    about the record file ever makes the check return an error. *)
Theorem buildIsStale_error_sources ctx t s stale e :
  returned (buildIsStale GetImageName recordPath ctx t s) = Some (stale, Some e) ->
  stale = true
  /\ ((lookupFault s = Some e /\ e <> ErrNoSuchImage)
      \/ (lookupFault s = None
          /\ is_Some (images s !! GetImageName ctx (config t))
          /\ lastModifiedOf s (Context (config t)) = inl e)).
Proof.
  destruct (buildIsStale_verdict ctx t s) as (evs & -> & _). cbn [returned].
  unfold verdict.
  destruct (lookupFault s) as [le|].
  { destruct le; intros [= <- <-]; (split; [reflexivity|left; split; congruence]). }
  destruct (images s !! GetImageName ctx (config t)) as [img|]; [|discriminate].
  destruct (lastModifiedOf s (Context (config t))) as [me|tm].
  { intros [= <- <-]. split; [reflexivity|right]. repeat split. eauto. }
  cbn zeta. destruct (recordFiles s !! recordPath ctx (config t)) as [f|];
    [destruct (stored f)|]; discriminate.
Qed.

(** X14. Staleness only grows with the age gap: between two worlds that
    differ in nothing the check consults but the context's modification
    time, a check that is stale without error stays stale when the context
    is newer still. *)
Theorem buildIsStale_monotone ctx t s1 s2 tm1 tm2 :
  lookupFault s2 = lookupFault s1 ->
  images s2 !! GetImageName ctx (config t) = images s1 !! GetImageName ctx (config t) ->
  recordFiles s2 !! recordPath ctx (config t)
  = recordFiles s1 !! recordPath ctx (config t) ->
  lastModifiedOf s1 (Context (config t)) = inr tm1 ->
  lastModifiedOf s2 (Context (config t)) = inr tm2 ->
  tm1 <= tm2 ->
  returned (buildIsStale GetImageName recordPath ctx t s1) = Some (true, None) ->
  returned (buildIsStale GetImageName recordPath ctx t s2) = Some (true, None).
Proof.
  intros Hlf Him Hrf H1 H2 Hle.
  destruct (buildIsStale_verdict ctx t s1) as (evs1 & -> & _).
  destruct (buildIsStale_verdict ctx t s2) as (evs2 & -> & _).
  cbn [returned]. unfold verdict. rewrite Hlf, Him, Hrf, H1, H2.
  destruct (lookupFault s1) as [le|]; [auto|].
  destruct (images s1 !! GetImageName ctx (config t)) as [img|]; [|auto].
  cbn zeta. intros H. f_equal.
  assert (Hlt : forall x, (x <? tm1) = true -> (x <? tm2) = true).
  { intros x Hx. apply Z.ltb_lt in Hx. apply Z.ltb_lt. lia. }
  destruct (recordFiles s1 !! recordPath ctx (config t)) as [f|].
  2:{ injection H as H. now rewrite (Hlt _ H). }
  destruct (stored f) as [se|id].
  { injection H as H. now rewrite (Hlt _ H). }
  injection H as H. f_equal.
  apply orb_true_iff in H as [H|H]; [now rewrite H|].
  rewrite (Hlt _ H). apply orb_true_r.
Qed.

End StaleProperties.


(** ** Running a build *)

Section BuildProperties.

Variable GetImageName : ExecuteContext -> ImageConfig -> string.
Variable recordPath : ExecuteContext -> ImageConfig -> string.

(** Simplifies projections of updated worlds and counts over explicit
    events, and nothing else. *)
Ltac wsimpl :=
  cbn [images lookupFault buildOutcome lstat statOf contentOf lastModifiedOf
       ignoreSources recordFiles writeFaults timeline reads trace
       with_trace with_images with_records with_writeFaults with_reads
       requests recordWrites lookups existsb is_probe app orb fst snd tail].

Lemma recordWrites_app evs1 evs2 :
  recordWrites (evs1 ++ evs2) = recordWrites evs1 ++ recordWrites evs2.
Proof.
  induction evs1 as [|ev evs1 IH]; cbn; [reflexivity|].
  destruct ev; cbn; now rewrite ?IH.
Qed.

Lemma lookups_app evs1 evs2 : lookups (evs1 ++ evs2) = lookups evs1 ++ lookups evs2.
Proof.
  induction evs1 as [|ev evs1 IH]; cbn; [reflexivity|].
  destruct ev; cbn; now rewrite ?IH.
Qed.

(** Debug lines of the packer are none of the events counted. *)
Lemma chatter_silent evs :
  forallb is_chatter evs = true ->
  requests evs = [] /\ recordWrites evs = [] /\ lookups evs = []
  /\ existsb is_probe evs = false.
Proof.
  induction evs as [|ev evs IH]; [auto|]. cbn [forallb].
  intros H. apply andb_true_iff in H as [Hev Hevs].
  destruct (IH Hevs) as (Hr & Hw & Hl & Hp).
  destruct ev as [| |[] | | | | |]; try discriminate. cbn. auto.
Qed.

(** The build step: after some quiet packing it either gives up with the
    pack's error, or sends the engine one request with the task's
    options. *)
Lemma buildStep_cases ctx t s e0 s1 :
  (if negb (String.eqb (Steps (config t)) "")
   then buildImageFromSteps GetImageName t ctx
   else buildImageFromDockerfile GetImageName t ctx) s = Ok e0 s1 ->
  exists k chat,
    forallb is_chatter chat = true
    /\ ((exists pe, e0 = Some pe
         /\ s1 = with_trace (trace s ++ chat) (with_reads (reads s + k) s))
        \/ exists opts,
            taskOptions (GetImageName ctx (config t)) ctx t opts
            /\ Client_BuildImage opts
                 (with_trace (trace s ++ chat) (with_reads (reads s + k) s))
               = Ok e0 s1).
Proof.
  destruct (String.eqb (Steps (config t)) "") eqn:Hsteps; cbn [negb].
  - unfold buildImageFromDockerfile, Stream. cbn zeta. intros H.
    exists 0%nat, []. split; [reflexivity|]. right.
    eexists. split; [|rewrite <- H; f_equal; destruct s; cbn;
                      unfold with_trace, with_reads; cbn;
                      now rewrite app_nil_r, Nat.add_0_r].
    unfold taskOptions. rewrite Hsteps. cbn. repeat split.
  - unfold buildImageFromSteps, bind. intros H.
    destruct (writeTarball t s) as [[buf e] sp|] eqn:Hpack; [|discriminate].
    apply writeTarball_inv in Hpack as [(k & chat & Hch & ->) _].
    exists k, chat. split; [exact Hch|].
    destruct e as [pe|].
    + unfold ret in H. injection H as <- <-. left. eauto.
    + unfold Stream in H. cbn zeta in H. right. eexists. split; [|exact H].
      unfold taskOptions. rewrite Hsteps. cbn. repeat split. eauto.
Qed.

(** Every way a run that builds can end, told by what the world answers:
    the engine's verdict on the one request, the lookup after it, and the
    outcome of the record writes. *)
Lemma RunBuild_build_inv ctx t s r s' :
  RunBuild GetImageName recordPath ctx t true s = Ok r s' ->
  exists evs,
    trace s' = trace s ++ evs
    /\ existsb is_probe evs = false
    /\ evolves s s'
    /\ ((requests evs = [] /\ r.1 = false /\ is_Some r.2
         /\ images s' = images s /\ recordFiles s' = recordFiles s
         /\ recordWrites evs = [] /\ lookups evs = [])
        \/ exists opts,
            requests evs = [opts]
            /\ taskOptions (GetImageName ctx (config t)) ctx t opts
            /\ match buildOutcome s opts with
               | inl be =>
                   r = (false, Some be)
                   /\ images s' = images s /\ recordFiles s' = recordFiles s
                   /\ recordWrites evs = [] /\ lookups evs = []
               | inr img =>
                   images s' = <[GetImageName ctx (config t) := img]> (images s)
                   /\ match lookupFault s with
                      | Some le =>
                          r = (false, Some le)
                          /\ recordFiles s' = recordFiles s
                          /\ recordWrites evs = []
                          /\ lookups evs = [GetImageName ctx (config t)]
                      | None =>
                          match writeFaults s with
                          | Some we :: _ =>
                              r = (false, Some we)
                              /\ recordFiles s' = recordFiles s
                              /\ recordWrites evs
                                 = [(recordPath ctx (config t), docker.ID img)]
                              /\ lookups evs = [GetImageName ctx (config t)]
                          | _ =>
                              r = (true, None)
                              /\ recordWrites evs
                                 = [(recordPath ctx (config t), docker.ID img);
                                    (recordPath ctx (config t), docker.ID img)]
                              /\ lookups evs = [GetImageName ctx (config t);
                                                GetImageName ctx (config t)]
                              /\ exists k,
                                  (reads s <= k < reads s')%nat
                                  /\ recordFiles s'
                                     = <[recordPath ctx (config t) :=
                                           {| stored := inr (docker.ID img);
                                              mtime := timeline s k |}]>
                                         (recordFiles s)
                          end
                      end
               end).
Proof.
  unfold RunBuild. cbn [negb]. unfold logger_Debug.
  rewrite (bind_Ok _ _ _ _ _ (emit_Ok _ _)). intros H.
  apply bind_Ok_inv in H as (e & s2 & Hbi & H).
  unfold buildImage in Hbi.
  apply bind_Ok_inv in Hbi as (e0 & s1 & Hstep & Hbi).
  apply buildStep_cases in Hstep as (k & chat & Hch & Hstep).
  destruct (chatter_silent _ Hch) as (Hcr & Hcw & Hcl & Hcp).
  cbn [trace reads with_trace with_reads] in Hstep.
  destruct Hstep as [(pe & -> & ->)|(opts & Hopts & Hreq)].
  { (* the pack failed *)
    unfold ret in Hbi. injection Hbi as <- <-. unfold ret in H. injection H as <- <-.
    eexists. split; [cbn [trace with_trace with_reads]; rewrite <- app_assoc;
                     reflexivity|].
    wsimpl. rewrite Hcp, Hcr, Hcw, Hcl.
    split; [reflexivity|]. split; [constructor; wsimpl; auto; lia|].
    left. repeat split. eauto. }
  assert (Hname : opt_Name opts = GetImageName ctx (config t)) by apply Hopts.
  rewrite Client_BuildImage_Ok in Hreq.
  cbn [buildOutcome trace with_trace with_reads] in Hreq.
  destruct (buildOutcome s opts) as [be|img] eqn:Hbo.
  { (* the engine refused *)
    injection Hreq as <- <-.
    unfold ret in Hbi. injection Hbi as <- <-. unfold ret in H. injection H as <- <-.
    eexists. split; [cbn [trace with_trace with_reads]; rewrite <- !app_assoc;
                     reflexivity|].
    wsimpl. rewrite existsb_app, requests_app, recordWrites_app, lookups_app.
    rewrite Hcp, Hcr, Hcw, Hcl. wsimpl.
    split; [reflexivity|]. split; [constructor; wsimpl; auto; lia|].
    right. exists opts.
    split; [reflexivity|]. split; [exact Hopts|]. rewrite Hbo. repeat split. }
  injection Hreq as <- <-.
  rewrite (bind_Ok _ _ _ _ _ (GetImage_Ok _ _ _ _)) in Hbi.
  cbn [lookupFault images with_images with_trace with_reads] in Hbi.
  rewrite Hname, lookup_insert_eq in Hbi.
  destruct (lookupFault s) as [le|] eqn:Hlf.
  { (* the lookup after the build failed *)
    unfold ret in Hbi. injection Hbi as <- <-. unfold ret in H. injection H as <- <-.
    eexists. split; [cbn [trace with_trace with_reads with_images];
                     rewrite <- !app_assoc; reflexivity|].
    wsimpl. rewrite existsb_app, requests_app, recordWrites_app, lookups_app.
    rewrite Hcp, Hcr, Hcw, Hcl. wsimpl.
    split; [reflexivity|]. split; [constructor; wsimpl; auto; lia|].
    right. exists opts.
    split; [reflexivity|]. split; [exact Hopts|]. rewrite Hbo, ?Hname.
    repeat split. }
  cbn beta iota in Hbi. rewrite updateImageRecord_Ok in Hbi.
  cbn [writeFaults with_images with_trace with_reads] in Hbi.
  assert (Hsecond : forall outcome,
    (writeFaults s = outcome) ->
    match outcome with Some _ :: _ => False | _ => True end ->
    e = None
    /\ s2 = with_records
           (<[recordPath ctx (config t) :=
                {| stored := inr (docker.ID img);
                   mtime := timeline s (reads s + k) |}]> (recordFiles s))
           (with_writeFaults (tail outcome)
              (with_reads (S (reads s + k))
                 (with_trace
                    ((((trace s ++ [EvLog DebugLevel "is stale"]) ++ chat)
                      ++ [EvBuildImage opts])
                     ++ [EvInspectImage (GetImageName ctx (config t));
                         EvWriteRecord (recordPath ctx (config t)) (docker.ID img)])
                    (with_images (<[GetImageName ctx (config t) := img]> (images s))
                       s))))).
  { intros outcome Hout Hok. rewrite Hout in Hbi.
    destruct outcome as [|[we|] later]; try contradiction;
      injection Hbi as <- <-; (split; [reflexivity|]);
      wsimpl; rewrite <- !app_assoc; reflexivity. }
  destruct (writeFaults s) as [|[we|] later] eqn:Hwf.
  - (* both writes succeed: nothing is pending *)
    destruct (Hsecond [] eq_refl I) as [-> ->]. clear Hsecond Hbi.
    rewrite (bind_Ok _ _ _ _ _ (GetImage_Ok _ _ _ _)) in H.
    cbn [lookupFault images with_images with_trace with_reads with_records
         with_writeFaults] in H.
    rewrite Hlf, lookup_insert_eq in H. cbn beta iota in H.
    unfold bind at 1 2 in H. rewrite updateImageRecord_Ok in H.
    cbn [writeFaults with_images with_trace with_reads with_records
         with_writeFaults tail] in H.
    unfold logger_Info, bind, emit, modify, ret in H. injection H as <- <-.
    eexists. split; [cbn [trace with_trace with_reads with_images with_records
                          with_writeFaults]; rewrite <- !app_assoc; reflexivity|].
    wsimpl. rewrite existsb_app, requests_app, recordWrites_app, lookups_app.
    rewrite Hcp, Hcr, Hcw, Hcl. wsimpl.
    split; [reflexivity|]. split; [constructor; wsimpl; auto; lia|].
    right. exists opts.
    split; [reflexivity|]. split; [exact Hopts|]. rewrite Hbo, ?Hname.
    split; [reflexivity|]. repeat split.
    exists (S (reads s + k)). split; [lia|]. now rewrite insert_insert_eq.
  - (* the first write fails *)
    rewrite ?Hwf in Hbi. injection Hbi as <- <-. unfold ret in H. injection H as <- <-.
    eexists. split; [cbn [trace with_trace with_reads with_images with_writeFaults];
                     rewrite <- !app_assoc; reflexivity|].
    wsimpl. rewrite existsb_app, requests_app, recordWrites_app, lookups_app.
    rewrite Hcp, Hcr, Hcw, Hcl. wsimpl.
    split; [reflexivity|]. split; [constructor; wsimpl; auto; lia|].
    right. exists opts.
    split; [reflexivity|]. split; [exact Hopts|]. rewrite Hbo, ?Hname.
    repeat split.
  - (* the first write succeeds *)
    destruct (Hsecond (None :: later) eq_refl I) as [-> ->]. clear Hsecond Hbi.
    rewrite (bind_Ok _ _ _ _ _ (GetImage_Ok _ _ _ _)) in H.
    cbn [lookupFault images with_images with_trace with_reads with_records
         with_writeFaults] in H.
    rewrite Hlf, lookup_insert_eq in H. cbn beta iota in H.
    unfold bind at 1 2 in H. rewrite updateImageRecord_Ok in H.
    cbn [writeFaults with_images with_trace with_reads with_records
         with_writeFaults tail] in H.
    unfold logger_Info, logger_Warnf, bind, emit, modify, ret in H.
    destruct later as [|[we2|] later2]; injection H as <- <-;
      (eexists; split; [cbn [trace with_trace with_reads with_images with_records
                             with_writeFaults]; rewrite <- !app_assoc; reflexivity|]);
      wsimpl; rewrite existsb_app, requests_app, recordWrites_app, lookups_app;
      rewrite Hcp, Hcr, Hcw, Hcl; wsimpl;
      (split; [reflexivity|]); (split; [constructor; wsimpl; auto; lia|]);
      right; exists opts;
      (split; [reflexivity|]); (split; [exact Hopts|]); rewrite Hbo, ?Hname;
      (split; [reflexivity|]); repeat split.
    + exists (S (reads s + k)). split; [lia|]. now rewrite insert_insert_eq.
    + exists (reads s + k)%nat. split; [lia|]. reflexivity.
    + exists (S (reads s + k)). split; [lia|]. now rewrite insert_insert_eq.
Qed.

(** A run first consults the staleness check, unless its dependencies were
    modified; it stops there on an error or a fresh verdict and builds
    otherwise. *)
Lemma RunBuild_split ctx t hasModifiedDeps s r s' :
  RunBuild GetImageName recordPath ctx t hasModifiedDeps s = Ok r s' ->
  exists evs0,
    requests evs0 = [] /\ recordWrites evs0 = []
    /\ (hasModifiedDeps = true -> evs0 = [])
    /\ ((hasModifiedDeps = false
         /\ (exists evs1,
               s' = with_trace (trace s ++ evs0 ++ evs1) s
               /\ requests evs1 = [] /\ recordWrites evs1 = [])
         /\ r = (false,
                 (verdict (GetImageName ctx (config t)) (recordPath ctx (config t))
                    (Context (config t)) s).2)
         /\ verdict (GetImageName ctx (config t)) (recordPath ctx (config t))
              (Context (config t)) s <> (true, None))
        \/ ((hasModifiedDeps = false ->
             verdict (GetImageName ctx (config t)) (recordPath ctx (config t))
               (Context (config t)) s = (true, None))
            /\ RunBuild GetImageName recordPath ctx t true
                 (with_trace (trace s ++ evs0) s) = Ok r s')).
Proof.
  destruct hasModifiedDeps.
  - intros H. exists []. repeat split. right. split; [discriminate|].
    rewrite <- H. f_equal. destruct s; unfold with_trace; cbn. now rewrite app_nil_r.
  - unfold RunBuild at 1. cbn [negb].
    destruct (buildIsStale_verdict GetImageName recordPath ctx t s)
      as (evs0 & Hcheck & Hr0 & Hw0 & _).
    rewrite (bind_Ok _ _ _ _ _ Hcheck).
    destruct (verdict _ _ _ s) as [stale [e|]] eqn:Hv; cbn beta iota.
    + unfold ret. intros [= <- <-]. exists evs0. repeat split; try assumption;
        try discriminate. left. split; [reflexivity|]. split.
      * exists []. now rewrite app_nil_r.
      * split; [reflexivity|discriminate].
    + destruct stale; cbn [negb].
      * intros H. exists evs0. repeat split; try assumption; try discriminate.
        right. split; [reflexivity|exact H].
      * unfold logger_Info, bind, emit, modify, ret. intros [= <- <-].
        exists evs0. repeat split; try assumption; try discriminate.
        left. split; [reflexivity|]. split.
        -- eexists. split; [cbn [trace with_trace]; rewrite <- app_assoc;
                            reflexivity|]. auto.
        -- split; [reflexivity|discriminate].
Qed.

(** Every way a run can end. *)
Lemma RunBuild_inv ctx t hasModifiedDeps s r s' :
  RunBuild GetImageName recordPath ctx t hasModifiedDeps s = Ok r s' ->
  exists evs,
    trace s' = trace s ++ evs
    /\ evolves s s'
    /\ (hasModifiedDeps = true -> existsb is_probe evs = false)
    /\ ((requests evs = [] /\ r.1 = false
         /\ images s' = images s /\ recordFiles s' = recordFiles s
         /\ recordWrites evs = []
         /\ (r.2 = None ->
             hasModifiedDeps = false
             /\ verdict (GetImageName ctx (config t)) (recordPath ctx (config t))
                  (Context (config t)) s = (false, None)))
        \/ exists opts,
            requests evs = [opts]
            /\ taskOptions (GetImageName ctx (config t)) ctx t opts
            /\ afterRequest (GetImageName ctx (config t)) (recordPath ctx (config t))
                 opts s s' r (recordWrites evs)
            /\ (hasModifiedDeps = false ->
                verdict (GetImageName ctx (config t)) (recordPath ctx (config t))
                  (Context (config t)) s = (true, None))).
Proof.
  intros H. apply RunBuild_split in H as (evs0 & Hr0 & Hw0 & Hb0 & H).
  destruct H as [(Hb & (evs1 & -> & Hr1 & Hw1) & -> & Hv)|(Hv & H)].
  - exists (evs0 ++ evs1). split; [reflexivity|]. split; [apply evolves_with_trace|].
    split; [congruence|]. left.
    rewrite requests_app, recordWrites_app, Hr0, Hr1, Hw0, Hw1.
    repeat split; try assumption; try reflexivity; try congruence.
    cbn [snd] in H.
    destruct (verdict _ _ _ s) as [stale oe]. cbn [snd] in H. subst oe.
    destruct stale; [now contradiction Hv|reflexivity].
  - apply RunBuild_build_inv in H as (evs & Htr & Hp & Hev & H).
    cbn [trace with_trace] in Htr. rewrite <- app_assoc in Htr.
    exists (evs0 ++ evs). split; [exact Htr|]. split.
    { eapply evolves_trans; [apply evolves_with_trace|exact Hev]. }
    split. { intros Hb. now rewrite (Hb0 Hb). }
    rewrite requests_app, recordWrites_app, Hr0, Hw0. cbn [app].
    destruct H as [(Hr & Hf & He & Him & Hrf & Hw & _)|(opts & Hr & Hopts & H)].
    + left. cbn [images recordFiles with_trace] in Him, Hrf.
      split; [exact Hr|]. split; [exact Hf|]. split; [exact Him|].
      split; [exact Hrf|]. split; [exact Hw|].
      intros Hnone. rewrite Hnone in He. destruct He as [x He]. discriminate.
    + right. exists opts. split; [exact Hr|]. split; [exact Hopts|].
      split; [|exact Hv]. unfold afterRequest.
      cbn [buildOutcome images recordFiles lookupFault writeFaults reads timeline
           with_trace] in H.
      destruct (buildOutcome s opts) as [be|img].
      { destruct H as (? & ? & ? & ? & _). auto. }
      destruct H as [Him H]. split; [exact Him|].
      destruct (lookupFault s) as [le|].
      { destruct H as (? & ? & ? & _). auto. }
      destruct (writeFaults s) as [|[we|] later].
      * destruct H as (? & ? & _ & ?). auto.
      * destruct H as (? & ? & ? & _). auto.
      * destruct H as (? & ? & _ & ?). auto.
Qed.

End BuildProperties.


Section RunProperties.

Variable GetImageName : ExecuteContext -> ImageConfig -> string.
Variable recordPath : ExecuteContext -> ImageConfig -> string.

(** X15. A run sends the engine at most one build request, and a request
    it sends carries the task's options: the image name, the build
    arguments of the configuration, its pull flag, the context's quiet flag
    and credentials, removal of temporary containers and the raw JSON
    stream switched on, and either the Dockerfile with the context
    directory (empty steps) or an input archive alone (steps). *)
Theorem RunBuild_one_request ctx t hasModifiedDeps s r s' :
  RunBuild GetImageName recordPath ctx t hasModifiedDeps s = Ok r s' ->
  exists evs,
    trace s' = trace s ++ evs
    /\ (requests evs = []
        \/ exists opts,
            requests evs = [opts]
            /\ taskOptions (GetImageName ctx (config t)) ctx t opts).
Proof.
  intros H. apply RunBuild_inv in H as (evs & Htr & _ & _ & H).
  exists evs. split; [exact Htr|].
  destruct H as [(Hr & _)|(opts & Hr & Hopts & _)]; eauto.
Qed.

(** X16. A run reports "modified" only with a nil error, and only when
    the engine built an image for its one request: that image is then
    registered under the task's image name, the lookup worked, and the
    record at the task's path names the image's id and carries a reading of
    the clock taken during the run; no other record and no other image
    changed. *)
Theorem RunBuild_modified_postcondition ctx t hasModifiedDeps s e s' :
  RunBuild GetImageName recordPath ctx t hasModifiedDeps s = Ok (true, e) s' ->
  e = None
  /\ lookupFault s = None
  /\ exists evs opts img k,
      trace s' = trace s ++ evs
      /\ requests evs = [opts]
      /\ buildOutcome s opts = inr img
      /\ images s' = <[GetImageName ctx (config t) := img]> (images s)
      /\ (reads s <= k < reads s')%nat
      /\ recordFiles s'
         = <[recordPath ctx (config t) :=
               {| stored := inr (docker.ID img); mtime := timeline s k |}]>
             (recordFiles s).
Proof.
  intros H. apply RunBuild_inv in H as (evs & Htr & _ & _ & H).
  destruct H as [(_ & Hf & _)|(opts & Hr & _ & H & _)]; [discriminate|].
  unfold afterRequest in H.
  destruct (buildOutcome s opts) as [be|img] eqn:Hbo.
  { destruct H as [H _]. discriminate. }
  destruct H as [Him H].
  destruct (lookupFault s) as [le|].
  { destruct H as [H _]. discriminate. }
  assert (Hok : (true, e) = (true, None)
                /\ exists k, (reads s <= k < reads s')%nat
                   /\ recordFiles s'
                      = <[recordPath ctx (config t) :=
                            {| stored := inr (docker.ID img); mtime := timeline s k |}]>
                          (recordFiles s)).
  { destruct (writeFaults s) as [|[we|] later].
    - destruct H as (? & _ & ?). auto.
    - destruct H as [H _]. discriminate.
    - destruct H as (? & _ & ?). auto. }
  destruct Hok as [He (k & Hk & Hrf)].
  split; [congruence|]. split; [reflexivity|].
  exists evs, opts, img, k. repeat split; try assumption; lia.
Qed.


(** X18. A run returns "not modified" with a nil error only when its
    dependencies were not modified and the staleness check found the image
    fresh; it has then requested no build, attempted no record write, and
    changed neither the images nor the records. *)
Theorem RunBuild_fresh_changes_nothing ctx t hasModifiedDeps s s' :
  RunBuild GetImageName recordPath ctx t hasModifiedDeps s = Ok (false, None) s' ->
  hasModifiedDeps = false
  /\ verdict (GetImageName ctx (config t)) (recordPath ctx (config t))
       (Context (config t)) s = (false, None)
  /\ images s' = images s
  /\ recordFiles s' = recordFiles s
  /\ exists evs,
      trace s' = trace s ++ evs /\ requests evs = [] /\ recordWrites evs = [].
Proof.
  intros H. apply RunBuild_inv in H as (evs & Htr & _ & _ & H).
  destruct H as [(Hr & _ & Him & Hrf & Hw & Hv)|(opts & _ & _ & H & _)].
  - destruct (Hv eq_refl) as [Hb Hfresh]. repeat split; try assumption. eauto.
  - exfalso. unfold afterRequest in H.
    destruct (buildOutcome s opts) as [be|img]; [destruct H as [H _]; discriminate|].
    destruct H as [_ H].
    destruct (lookupFault s) as [le|]; [destruct H as [H _]; discriminate|].
    destruct (writeFaults s) as [|[we|] later]; destruct H as [H _]; discriminate.
Qed.

(** X19. The record is written only for the task's own path and only
    after a successful build: a run that reports "modified" has attempted
    the write twice, both times with the id of the image just built, and any
    other run at most once. *)
Theorem RunBuild_record_writes ctx t hasModifiedDeps s r s' :
  RunBuild GetImageName recordPath ctx t hasModifiedDeps s = Ok r s' ->
  exists evs n id,
    trace s' = trace s ++ evs
    /\ recordWrites evs = replicate n (recordPath ctx (config t), id)
    /\ (if r.1 then n = 2%nat else (n <= 1)%nat)
    /\ ((0 < n)%nat ->
        exists opts img,
          requests evs = [opts] /\ buildOutcome s opts = inr img
          /\ id = docker.ID img).
Proof.
  intros H. apply RunBuild_inv in H as (evs & Htr & _ & _ & H).
  exists evs.
  destruct H as [(_ & Hf & _ & _ & Hw & _)|(opts & Hr & _ & H & _)].
  { exists 0%nat, "". split; [exact Htr|]. split; [now rewrite Hw|].
    split; [rewrite Hf; lia|]. intros; lia. }
  unfold afterRequest in H.
  destruct (buildOutcome s opts) as [be|img] eqn:Hbo.
  { destruct H as (-> & _ & _ & ->). exists 0%nat, "".
    split; [exact Htr|]. split; [reflexivity|]. split; [cbn; lia|]. intros; lia. }
  destruct H as [_ H].
  destruct (lookupFault s) as [le|].
  { destruct H as (-> & _ & ->). exists 0%nat, "".
    split; [exact Htr|]. split; [reflexivity|]. split; [cbn; lia|]. intros; lia. }
  assert (Hbuilt : exists opts0 img0,
            requests evs = [opts0] /\ buildOutcome s opts0 = inr img0
            /\ docker.ID img = docker.ID img0) by eauto.
  destruct (writeFaults s) as [|[we|] later].
  - destruct H as (-> & -> & _). exists 2%nat, (docker.ID img).
    split; [exact Htr|]. split; [reflexivity|]. split; [reflexivity|]. auto.
  - destruct H as (-> & _ & ->). exists 1%nat, (docker.ID img).
    split; [exact Htr|]. split; [reflexivity|]. split; [cbn; lia|]. auto.
  - destruct H as (-> & -> & _). exists 2%nat, (docker.ID img).
    split; [exact Htr|]. split; [reflexivity|]. split; [reflexivity|]. auto.
Qed.

(** X20. When the dependencies were modified the run skips the staleness
    check altogether: it never scans the context for its modification time
    and never reads the record, and it asks the engine for the image only
    after the engine has built it. *)
Theorem RunBuild_modified_deps_skip_check ctx t s r s' :
  RunBuild GetImageName recordPath ctx t true s = Ok r s' ->
  exists evs,
    trace s' = trace s ++ evs
    /\ existsb is_probe evs = false
    /\ (lookups evs <> [] ->
        exists opts img, requests evs = [opts] /\ buildOutcome s opts = inr img).
Proof.
  intros H. apply RunBuild_build_inv in H as (evs & Htr & Hp & _ & H).
  exists evs. split; [exact Htr|]. split; [exact Hp|]. intros Hl.
  destruct H as [(_ & _ & _ & _ & _ & _ & Hnone)|(opts & Hr & _ & H)];
    [congruence|].
  destruct (buildOutcome s opts) as [be|img] eqn:Hbo; [|eauto].
  destruct H as (_ & _ & _ & _ & Hnone). congruence.
Qed.

(** X21. With the image present, a context that cannot be scanned for its
    modification time stops a run whose dependencies were not modified: the
    run returns the scan's error, requests no build and writes no record,
    and leaves the world as it was but for the trace. *)
Theorem RunBuild_context_scan_error ctx t s e :
  lookupFault s = None ->
  is_Some (images s !! GetImageName ctx (config t)) ->
  lastModifiedOf s (Context (config t)) = inl e ->
  exists evs,
    RunBuild GetImageName recordPath ctx t false s
    = Ok (false, Some e) (with_trace (trace s ++ evs) s)
    /\ requests evs = [] /\ recordWrites evs = [].
Proof.
  intros Hlf [img Himg] Hmod.
  destruct (buildIsStale_verdict GetImageName recordPath ctx t s)
    as (evs & Hcheck & Hr & Hw & _).
  unfold verdict in Hcheck. rewrite Hlf, Himg, Hmod in Hcheck.
  exists evs. unfold RunBuild. cbn [negb].
  rewrite (bind_Ok _ _ _ _ _ Hcheck). auto.
Qed.

(** X22. When the engine refuses the build, the run reports "not
    modified" and has changed neither the engine's images nor any record,
    and has attempted no record write. *)
Theorem RunBuild_refused_build ctx t hasModifiedDeps s r s' :
  (forall opts, exists be, buildOutcome s opts = inl be) ->
  RunBuild GetImageName recordPath ctx t hasModifiedDeps s = Ok r s' ->
  r.1 = false
  /\ images s' = images s
  /\ recordFiles s' = recordFiles s
  /\ exists evs, trace s' = trace s ++ evs /\ recordWrites evs = [].
Proof.
  intros Hrefuse H. apply RunBuild_inv in H as (evs & Htr & _ & _ & H).
  destruct H as [(_ & Hf & Him & Hrf & Hw & _)|(opts & _ & _ & H & _)].
  - repeat split; try assumption. eauto.
  - unfold afterRequest in H. destruct (Hrefuse opts) as [be Hbo].
    rewrite Hbo in H. destruct H as (-> & Him & Hrf & Hw).
    repeat split; try assumption. eauto.
Qed.

Lemma getTarContext_source_error t s e l :
  ignoreSources s = inl e ->
  listing (Context (config t)) (lstat s (Context (config t))) = Some l ->
  getTarContext t s = Ok ([], Some e) s.
Proof.
  intros Hsrc Hl.
  assert (Hc : scanRoot2Slice (Context (config t)) [] s = Ok (l, None) s).
  { rewrite scanRoot2Slice_Ok. unfold filepath.Walk, bind.
    now rewrite walk_scan_listing, Hl. }
  assert (Hi : scanIgnored t s = Ok ([], Some e) s).
  { unfold scanIgnored, dockerignore.ReadAll, bind, get, ret. now rewrite Hsrc. }
  unfold getTarContext, scanContext.
  rewrite (bind_Ok _ _ _ _ _ Hc), (bind_Ok _ _ _ _ _ Hi). reflexivity.
Qed.

(** X23. For a task built from steps, ignore-pattern sources that cannot
    be read fail the run before the engine is asked anything: with a
    context the scan can walk, the run returns the read error, having taken
    one reading of the clock (for the Dockerfile member) and logged one
    line, and nothing else. *)
Theorem RunBuild_ignore_source_error ctx t s e l :
  Steps (config t) <> "" ->
  ignoreSources s = inl e ->
  listing (Context (config t)) (lstat s (Context (config t))) = Some l ->
  RunBuild GetImageName recordPath ctx t true s
  = Ok (false, Some e)
       (with_reads (S (reads s))
          (with_trace (trace s ++ [EvLog DebugLevel "is stale"]) s)).
Proof.
  intros Hsteps Hsrc Hl. apply String.eqb_neq in Hsteps.
  unfold RunBuild. cbn [negb]. unfold logger_Debug.
  rewrite (bind_Ok _ _ _ _ _ (emit_Ok _ _)).
  set (s0 := with_trace _ s).
  unfold buildImage. rewrite Hsteps. cbn [negb].
  unfold buildImageFromSteps, writeTarball.
  unfold bind at 1 2 3 4.
  rewrite (writeDockerfiletoTarBall_Ok t s0). cbn beta iota.
  unfold writeFilesToTarBall, bind at 1 2.
  rewrite (getTarContext_source_error t (with_reads (S (reads s0)) s0) e l Hsrc Hl).
  reflexivity.
Qed.

End RunProperties.


(** ** The further properties at concrete tasks and worlds *)


Lemma scanRoot2Slice_returns_extension_witness :
  exists more, ["app/main.go"; "app/run.sh"] = [] ++ more.
Proof.
  destruct (scanRoot2Slice_returns_extension "app" [] Scenario.fresh
              ["app/main.go"; "app/run.sh"] None Scenario.fresh eq_refl)
    as (_ & _ & H).
  exact H.
Defined.

Lemma scanIgnored_error_iff_witness :
  scanIgnored Scenario.libTask Cases.ignoreUnreadable
  = Ok ([], Some (ErrOther "open .dockerignore: permission denied"))
       Cases.ignoreUnreadable.
Proof.
  exact (proj1 (scanIgnored_error_iff Scenario.libTask Cases.ignoreUnreadable
                  (ErrOther "open .dockerignore: permission denied")) eq_refl).
Defined.




Lemma writeTarball_partial_archive_witness :
  exists buf s',
    writeTarball Scenario.fromSteps Scenario.unreadableFile
    = Ok (buf, Some (ErrOther "permission denied")) s'
    /\ last buf = Some tar.Trailer
    /\ length (tar.unpack buf) = 2%nat.
Proof.
  edestruct (writeTarball_partial_archive Scenario.fromSteps Scenario.unreadableFile
               ["app/main.go"] "app/run.sh" [] (ErrOther "permission denied"))
    as (buf & s' & Hrun & Hlast & Hlen & _).
  - vm_compute. reflexivity.
  - reflexivity.
  - reflexivity.
  - exists buf, s'. auto.
Defined.

Lemma writeTarball_stamps_in_order_witness :
  exists buf e s',
    writeTarball Scenario.fromSteps Scenario.fresh = Ok (buf, e) s'
    /\ forall mi mj,
        tar.unpack buf !! 0%nat = Some mi -> tar.unpack buf !! 2%nat = Some mj ->
        tar.ModTime (tar.header mi) <= tar.ModTime (tar.header mj).
Proof.
  eassert (Hctx : getTarContext Scenario.fromSteps Scenario.fresh = Ok (_, None) _)
    by (vm_compute; reflexivity).
  eassert (Hrun : writeTarball Scenario.fromSteps Scenario.fresh = Ok (_, _) _)
    by (vm_compute; reflexivity).
  eexists _, _, _. split; [exact Hrun|].
  intros mi mj Hi Hj.
  refine (proj1 (writeTarball_stamps_in_order Scenario.fromSteps Scenario.fresh
                   _ _ _ _ _ Hctx _ Hrun 0%nat 2%nat mi mj _ Hi Hj)).
  - intros i j Hij. cbn. lia.
  - lia.
Defined.

Lemma writeTarball_touches_nothing_witness :
  exists buf e s',
    writeTarball Scenario.fromSteps Scenario.recordOfOld = Ok (buf, e) s'
    /\ images s' = images Scenario.recordOfOld
    /\ recordFiles s' = recordFiles Scenario.recordOfOld.
Proof.
  eassert (Hrun : writeTarball Scenario.fromSteps Scenario.recordOfOld = Ok (_, _) _)
    by (vm_compute; reflexivity).
  destruct (writeTarball_touches_nothing _ _ _ _ _ Hrun) as (Him & Hrf & _).
  eexists _, _, _. split; [exact Hrun|]. split; assumption.
Defined.

Lemma buildArgs_entries_witness :
  {| docker.ArgName := "VERSION"; docker.ArgValue := "1.2" |}
  ∈ buildArgs {[ "VERSION" := "1.2" ]}.
Proof.
  apply (proj1 (buildArgs_entries {[ "VERSION" := "1.2" ]}) "VERSION" "1.2").
  apply lookup_singleton_eq.
Defined.

Lemma buildIsStale_error_sources_witness :
  lookupFault Scenario.engineDown
  = Some (ErrOther "cannot connect to the Docker daemon").
Proof.
  destruct (buildIsStale_error_sources Scenario.nameOf Scenario.pathOf Scenario.ctx0
              Scenario.fromDockerfile Scenario.engineDown true
              (ErrOther "cannot connect to the Docker daemon") eq_refl)
    as [_ [[H _]|[H _]]].
  - exact H.
  - discriminate H.
Defined.

Lemma buildIsStale_monotone_witness :
  returned (buildIsStale Scenario.nameOf Scenario.pathOf Scenario.ctx0
              Scenario.fromDockerfile Cases.touchedAgain) = Some (true, None).
Proof.
  apply (buildIsStale_monotone Scenario.nameOf Scenario.pathOf Scenario.ctx0
           Scenario.fromDockerfile Cases.touched Cases.touchedAgain 6 7);
    try reflexivity.
  lia.
Defined.

Lemma RunBuild_one_request_witness :
  exists s' evs,
    RunBuild Scenario.nameOf Scenario.pathOf Scenario.ctx0 Scenario.fromSteps false
      Scenario.fresh = Ok (true, None) s'
    /\ trace s' = trace Scenario.fresh ++ evs
    /\ (requests evs = []
        \/ exists opts,
            requests evs = [opts]
            /\ taskOptions (Scenario.nameOf Scenario.ctx0 (config Scenario.fromSteps))
                 Scenario.ctx0 Scenario.fromSteps opts).
Proof.
  eassert (Hrun : RunBuild Scenario.nameOf Scenario.pathOf Scenario.ctx0
                    Scenario.fromSteps false Scenario.fresh = Ok (true, None) _)
    by (vm_compute; reflexivity).
  destruct (RunBuild_one_request _ _ _ _ _ _ _ _ Hrun) as (evs & Htr & H).
  eexists _, evs. split; [exact Hrun|]. split; [exact Htr|exact H].
Defined.

Lemma RunBuild_modified_postcondition_witness :
  exists s',
    RunBuild Scenario.nameOf Scenario.pathOf Scenario.ctx0 Scenario.fromDockerfile false
      Scenario.fresh = Ok (true, None) s'
    /\ exists img, images s' = <[ "app" := img ]> (images Scenario.fresh).
Proof.
  eassert (Hrun : RunBuild Scenario.nameOf Scenario.pathOf Scenario.ctx0
                    Scenario.fromDockerfile false Scenario.fresh = Ok (true, None) _)
    by (vm_compute; reflexivity).
  destruct (RunBuild_modified_postcondition _ _ _ _ _ _ _ _ Hrun)
    as (_ & _ & evs & opts & img & k & _ & _ & _ & Him & _).
  eexists. split; [exact Hrun|]. exists img. exact Him.
Defined.


Lemma RunBuild_fresh_changes_nothing_witness :
  exists s',
    RunBuild Scenario.nameOf Scenario.pathOf Scenario.ctx0 Scenario.fromDockerfile false
      Scenario.recordTied = Ok (false, None) s'
    /\ images s' = images Scenario.recordTied
    /\ recordFiles s' = recordFiles Scenario.recordTied.
Proof.
  eassert (Hrun : RunBuild Scenario.nameOf Scenario.pathOf Scenario.ctx0
                    Scenario.fromDockerfile false Scenario.recordTied
                  = Ok (false, None) _)
    by (vm_compute; reflexivity).
  destruct (RunBuild_fresh_changes_nothing _ _ _ _ _ _ _ Hrun)
    as (_ & _ & Him & Hrf & _).
  eexists. split; [exact Hrun|]. split; assumption.
Defined.

Lemma RunBuild_record_writes_witness :
  exists s' evs n id,
    RunBuild Scenario.nameOf Scenario.pathOf Scenario.ctx0 Scenario.fromDockerfile false
      Scenario.fresh = Ok (true, None) s'
    /\ trace s' = trace Scenario.fresh ++ evs
    /\ recordWrites evs = replicate n ("/work/.dobi/images/app", id)
    /\ n = 2%nat.
Proof.
  eassert (Hrun : RunBuild Scenario.nameOf Scenario.pathOf Scenario.ctx0
                    Scenario.fromDockerfile false Scenario.fresh = Ok (true, None) _)
    by (vm_compute; reflexivity).
  destruct (RunBuild_record_writes _ _ _ _ _ _ _ _ Hrun)
    as (evs & n & id & Htr & Hw & Hn & _).
  eexists _, evs, n, id. split; [exact Hrun|]. auto.
Defined.

Lemma RunBuild_modified_deps_skip_check_witness :
  exists r s' evs,
    RunBuild Scenario.nameOf Scenario.pathOf Scenario.ctx0 Scenario.fromDockerfile true
      Scenario.recordTied = Ok r s'
    /\ trace s' = trace Scenario.recordTied ++ evs
    /\ existsb is_probe evs = false.
Proof.
  eassert (Hrun : RunBuild Scenario.nameOf Scenario.pathOf Scenario.ctx0
                    Scenario.fromDockerfile true Scenario.recordTied = Ok _ _)
    by (vm_compute; reflexivity).
  destruct (RunBuild_modified_deps_skip_check _ _ _ _ _ _ _ Hrun)
    as (evs & Htr & Hp & _).
  eexists _, _, evs. split; [exact Hrun|]. auto.
Defined.

Lemma RunBuild_context_scan_error_witness :
  exists evs,
    RunBuild Scenario.nameOf Scenario.pathOf Scenario.ctx0 Scenario.fromDockerfile false
      Cases.builtUnscannable
    = Ok (false, Some (ErrOther "permission denied"))
         (with_trace (trace Cases.builtUnscannable ++ evs) Cases.builtUnscannable)
    /\ requests evs = [] /\ recordWrites evs = [].
Proof.
  apply (RunBuild_context_scan_error Scenario.nameOf Scenario.pathOf Scenario.ctx0
           Scenario.fromDockerfile Cases.builtUnscannable (ErrOther "permission denied")).
  - reflexivity.
  - eexists. vm_compute. reflexivity.
  - reflexivity.
Defined.

Lemma RunBuild_refused_build_witness :
  exists r s',
    RunBuild Scenario.nameOf Scenario.pathOf Scenario.ctx0 Scenario.fromSteps true
      Cases.engineRefuses = Ok r s'
    /\ r.1 = false
    /\ images s' = images Cases.engineRefuses
    /\ recordFiles s' = recordFiles Cases.engineRefuses.
Proof.
  eassert (Hrun : RunBuild Scenario.nameOf Scenario.pathOf Scenario.ctx0
                    Scenario.fromSteps true Cases.engineRefuses = Ok _ _)
    by (vm_compute; reflexivity).
  edestruct (RunBuild_refused_build Scenario.nameOf Scenario.pathOf Scenario.ctx0
               Scenario.fromSteps true Cases.engineRefuses) as (Hf & Him & Hrf & _).
  - intros opts. eexists. reflexivity.
  - exact Hrun.
  - eexists _, _. split; [exact Hrun|]. auto.
Defined.

Lemma RunBuild_ignore_source_error_witness :
  returned (RunBuild Scenario.nameOf Scenario.pathOf Scenario.ctx0 Scenario.libTask true
              Cases.ignoreUnreadable)
  = Some (false, Some (ErrOther "open .dockerignore: permission denied")).
Proof.
  rewrite (RunBuild_ignore_source_error Scenario.nameOf Scenario.pathOf Scenario.ctx0
             Scenario.libTask Cases.ignoreUnreadable
             (ErrOther "open .dockerignore: permission denied")
             ["lib/a.go"; "lib/sub/b.go"]).
  - reflexivity.
  - discriminate.
  - reflexivity.
  - reflexivity.
Defined.
